(** * Voice Task Manager: the live session hook and the task list

    A shallow embedding of [hooks/useLiveManager.ts] (the session manager:
    [connect], [disconnect], the session callbacks [onopen], [onmessage],
    [onclose], [onerror], the ['ended'] listener of a scheduled buffer) and
    of [App.tsx]'s [handleCreateTask], with the properties of the
    specification that concern them.

    Conventions of the embedding.
    - A React [useRef] cell is a field of [State]; a [useState] value is a
      field too, and a setter writes it at once.
    - Browser and SDK objects (audio contexts, the microphone stream, the
      script processor, buffer source nodes, the live session) are opaque
      handles; what the code asks of them is recorded, in program order,
      in a list of [Effect]s.
    - JavaScript numbers holding times are an abstract ordered type with
      addition (class [JsNumber]); the laws assumed are order laws that
      hold of IEEE doubles as long as no NaN arises, and of the integers.
    - A JavaScript exception is the [Thrown] completion of the [Js] monad.
    - [connect] is two steps, split at its [await getUserMedia]; every
      other callback is one step. The capture side ([onaudioprocess]) only
      sends frames and touches no state; it is left out. *)

From stdpp Require Import base gmap strings list.
From Stdlib Require Import ZArith Lia.

Local Open Scope string_scope.
Local Open Scope list_scope.

(** ** Numbers *)

Module Num.

(** The operations the hook applies to times ([Math.max], [+=], the
    literal [0]) and the order facts about them that the proofs use. *)
Class JsNumber (T : Type) := {
  zero : T;
  add : T -> T -> T;
  leb : T -> T -> bool;
  leb_refl : forall a, leb a a = true;
  leb_trans : forall a b c, leb a b = true -> leb b c = true -> leb a c = true;
  leb_total : forall a b, leb a b = true \/ leb b a = true;
  add_nonneg : forall a d, leb zero d = true -> leb a (add a d) = true
}.

(** [Math.max(a, b)] on numbers that are not NaN. *)
Definition max {T} `{JsNumber T} (a b : T) : T :=
  if leb a b then b else a.

(** Integers (a time counted in ticks) are such numbers. *)
#[export] Program Instance Z_JsNumber : JsNumber Z := {|
  zero := 0%Z;
  add := Z.add;
  leb := Z.leb
|}.
Next Obligation. intros a. apply Z.leb_refl. Qed.
Next Obligation. intros a b c H1 H2. apply Z.leb_le in H1, H2. apply Z.leb_le. lia. Qed.
Next Obligation. intros a b. rewrite !Z.leb_le. lia. Qed.
Next Obligation. intros a d H. apply Z.leb_le in H. apply Z.leb_le. lia. Qed.

End Num.

(** ** types.ts *)

Module Types.

(** [interface TaskToolArgs]: an optional field is an [option]. *)
Record TaskToolArgs := {
  args_title : string;
  args_date : option string;
  args_time : option string;
  args_priority : option string
}.

(** [interface Task]. The union types of [priority] and [status] are
    erased at run time, where both are strings; [createdAt] is a
    millisecond count. *)
Record Task := {
  id : string;
  title : string;
  date : option string;
  time : option string;
  priority : string;
  status : string;
  createdAt : Z
}.

End Types.

(** ** App.tsx *)

Module App.
Import Types.

(** [x || 'Medium'] on an optional string: [undefined] and the empty
    string are the falsy values. *)
Definition or_Medium (p : option string) : string :=
  match p with
  | Some s => if String.eqb s "" then "Medium" else s
  | None => "Medium"
  end.

(** [handleCreateTask]: [uuid] is the value of [crypto.randomUUID()] and
    [now] the value of [Date.now()] at the call; the result is the
    function handed to [setTasks], applied to the previous list. *)
Definition handleCreateTask (uuid : string) (now : Z) (args : TaskToolArgs)
    (prev : list Task) : list Task :=
  let newTask :=
    {| id := uuid;
       title := args_title args;
       date := args_date args;
       time := args_time args;
       priority := or_Medium (args_priority args);
       status := "pending";
       createdAt := now |} in
  newTask :: prev.

End App.

(** ** hooks/useLiveManager.ts *)

Module LiveManager.
Import Num Types.

(** Handles of the browser and SDK objects the hook holds. *)
Definition AudioContext := nat.
Definition MediaStream := nat.
Definition ScriptProcessorNode := nat.
Definition AudioBufferSourceNode := nat.
Definition LiveSession := nat.

(** The part of a [LiveServerMessage] that [onmessage] reads. *)
Record FunctionCall := {
  fc_id : string;
  fc_name : string;
  fc_args : TaskToolArgs
}.

Record Blob := { data : option string }.
Record Part := { inlineData : option Blob }.
Record Content := { parts : option (list Part) }.
Record ServerContent := { modelTurn : option Content }.

Record LiveServerMessage := {
  toolCall : option (list FunctionCall);
  serverContent : option ServerContent
}.

(** [message.serverContent?.modelTurn?.parts?.[0]?.inlineData?.data] *)
Definition base64Audio_of (message : LiveServerMessage) : option string :=
  sc ← serverContent message;
  mt ← modelTurn sc;
  ps ← parts mt;
  p ← head ps;
  b ← inlineData p;
  data b.

(** A string in a condition: the empty string is falsy. *)
Definition truthy (s : string) : bool := negb (String.eqb s "").

(** What [connect] gets from the platform: whether [new GoogleGenAI]
    returns, and the two [new AudioContext] results ([None]: the
    constructor throws). *)
Record ConnectEnv := {
  env_client : bool;
  env_outputContext : option AudioContext;
  env_inputContext : option AudioContext
}.

(** Whether a call of [connect] returned at its guard, ran into its
    [catch], is suspended at [await getUserMedia], or ran to its end. *)
Inductive ConnectStatus := Skipped | Failed | AwaitingMicrophone | Started.

Section Hook.

Context {T : Type} `{JsNumber T}.
(** The application state the callback works on. *)
Context {A : Type}.

(** The state of one mounted hook: its three [useState] values and its
    seven refs. *)
Record State := {
  isConnected : bool;
  isTalking : bool;
  volume : T;
  audioContextRef : option AudioContext;
  inputContextRef : option AudioContext;
  nextStartTimeRef : T;
  sourcesRef : gset AudioBufferSourceNode;
  sessionPromiseRef : option LiveSession;
  processorRef : option ScriptProcessorNode;
  streamRef : option MediaStream
}.

(** The hook's state together with the application's. *)
Record World := { hook : State; app : A }.

(** The state at mount. *)
Definition initial : State :=
  {| isConnected := false; isTalking := false; volume := zero;
     audioContextRef := None; inputContextRef := None;
     nextStartTimeRef := zero; sourcesRef := ∅;
     sessionPromiseRef := None; processorRef := None; streamRef := None |}.

(** What the hook asks of the outside. *)
Inductive Effect :=
| ConsoleLog (text : string)
| ConsoleError (text : string)
| SessionClose (session : LiveSession)
| TrackStop (stream : MediaStream)
| ProcessorDisconnect (processor : ScriptProcessorNode)
| ContextClose (ctx : AudioContext)
| ContextCreate (ctx : AudioContext) (sampleRate : Z)
| GetUserMedia
| ProcessorCreate (ctx : AudioContext) (processor : ScriptProcessorNode)
| VolumeLoopStart
| LiveConnect (session : LiveSession)
| TaskCreated (args : TaskToolArgs)
| SendToolResponse (session : LiveSession) (id name result : string)
| SourceStart (node : AudioBufferSourceNode) (when_ duration : T).

(** *** The monad of a callback body *)

Inductive Completion (X : Type) :=
| Normal (x : X)
| Thrown.
Global Arguments Normal {X} x.
Global Arguments Thrown {X}.

Definition Js (X : Type) : Type :=
  World -> Completion X * World * list Effect.

Definition ret {X} (x : X) : Js X := fun w => (Normal x, w, []).

Definition bind {X Y} (m : Js X) (k : X -> Js Y) : Js Y :=
  fun w =>
    match m w with
    | (Normal x, w1, e1) =>
        let '(r, w2, e2) := k x w1 in (r, w2, e1 ++ e2)
    | (Thrown, w1, e1) => (Thrown, w1, e1)
    end.

Definition throw {X} : Js X := fun w => (Thrown, w, []).

(** [try { body } catch { handler }] *)
Definition try_catch {X} (body handler : Js X) : Js X :=
  fun w =>
    match body w with
    | (Normal x, w1, e1) => (Normal x, w1, e1)
    | (Thrown, w1, e1) =>
        let '(r, w2, e2) := handler w1 in (r, w2, e1 ++ e2)
    end.

Definition emit (e : Effect) : Js unit := fun w => (Normal tt, w, [e]).

Definition read {X} (f : State -> X) : Js X :=
  fun w => (Normal (f (hook w)), w, []).

Definition write (f : State -> State) : Js unit :=
  fun w => (Normal tt, {| hook := f (hook w); app := app w |}, []).

Declare Scope js_scope.
Notation "x ← y ; z" := (bind y (fun x => z))
  (at level 20, y at level 100, z at level 200, only parsing) : js_scope.
Notation "x ;; z" := (bind x (fun _ => z))
  (at level 100, z at level 200, only parsing, right associativity) : js_scope.
Local Open Scope js_scope.

(** *** Assignments to the state *)

Definition set_isConnected (b : bool) (s : State) : State :=
  {| isConnected := b; isTalking := isTalking s; volume := volume s;
     audioContextRef := audioContextRef s; inputContextRef := inputContextRef s;
     nextStartTimeRef := nextStartTimeRef s; sourcesRef := sourcesRef s;
     sessionPromiseRef := sessionPromiseRef s; processorRef := processorRef s;
     streamRef := streamRef s |}.

Definition set_isTalking (b : bool) (s : State) : State :=
  {| isConnected := isConnected s; isTalking := b; volume := volume s;
     audioContextRef := audioContextRef s; inputContextRef := inputContextRef s;
     nextStartTimeRef := nextStartTimeRef s; sourcesRef := sourcesRef s;
     sessionPromiseRef := sessionPromiseRef s; processorRef := processorRef s;
     streamRef := streamRef s |}.

Definition set_volume (v : T) (s : State) : State :=
  {| isConnected := isConnected s; isTalking := isTalking s; volume := v;
     audioContextRef := audioContextRef s; inputContextRef := inputContextRef s;
     nextStartTimeRef := nextStartTimeRef s; sourcesRef := sourcesRef s;
     sessionPromiseRef := sessionPromiseRef s; processorRef := processorRef s;
     streamRef := streamRef s |}.

Definition set_audioContextRef (c : option AudioContext) (s : State) : State :=
  {| isConnected := isConnected s; isTalking := isTalking s; volume := volume s;
     audioContextRef := c; inputContextRef := inputContextRef s;
     nextStartTimeRef := nextStartTimeRef s; sourcesRef := sourcesRef s;
     sessionPromiseRef := sessionPromiseRef s; processorRef := processorRef s;
     streamRef := streamRef s |}.

Definition set_inputContextRef (c : option AudioContext) (s : State) : State :=
  {| isConnected := isConnected s; isTalking := isTalking s; volume := volume s;
     audioContextRef := audioContextRef s; inputContextRef := c;
     nextStartTimeRef := nextStartTimeRef s; sourcesRef := sourcesRef s;
     sessionPromiseRef := sessionPromiseRef s; processorRef := processorRef s;
     streamRef := streamRef s |}.

Definition set_nextStartTimeRef (t : T) (s : State) : State :=
  {| isConnected := isConnected s; isTalking := isTalking s; volume := volume s;
     audioContextRef := audioContextRef s; inputContextRef := inputContextRef s;
     nextStartTimeRef := t; sourcesRef := sourcesRef s;
     sessionPromiseRef := sessionPromiseRef s; processorRef := processorRef s;
     streamRef := streamRef s |}.

Definition set_sourcesRef (x : gset AudioBufferSourceNode) (s : State) : State :=
  {| isConnected := isConnected s; isTalking := isTalking s; volume := volume s;
     audioContextRef := audioContextRef s; inputContextRef := inputContextRef s;
     nextStartTimeRef := nextStartTimeRef s; sourcesRef := x;
     sessionPromiseRef := sessionPromiseRef s; processorRef := processorRef s;
     streamRef := streamRef s |}.

Definition set_sessionPromiseRef (p : option LiveSession) (s : State) : State :=
  {| isConnected := isConnected s; isTalking := isTalking s; volume := volume s;
     audioContextRef := audioContextRef s; inputContextRef := inputContextRef s;
     nextStartTimeRef := nextStartTimeRef s; sourcesRef := sourcesRef s;
     sessionPromiseRef := p; processorRef := processorRef s;
     streamRef := streamRef s |}.

Definition set_processorRef (p : option ScriptProcessorNode) (s : State) : State :=
  {| isConnected := isConnected s; isTalking := isTalking s; volume := volume s;
     audioContextRef := audioContextRef s; inputContextRef := inputContextRef s;
     nextStartTimeRef := nextStartTimeRef s; sourcesRef := sourcesRef s;
     sessionPromiseRef := sessionPromiseRef s; processorRef := p;
     streamRef := streamRef s |}.

Definition set_streamRef (m : option MediaStream) (s : State) : State :=
  {| isConnected := isConnected s; isTalking := isTalking s; volume := volume s;
     audioContextRef := audioContextRef s; inputContextRef := inputContextRef s;
     nextStartTimeRef := nextStartTimeRef s; sourcesRef := sourcesRef s;
     sessionPromiseRef := sessionPromiseRef s; processorRef := processorRef s;
     streamRef := m |}.

(** *** disconnect *)

(** [sessionPromiseRef.current.then(session => session.close())] queues
    the close on the promise; [SessionClose] records the request. The
    platform calls ([stop], [disconnect], [close]) return without
    throwing. *)
Definition disconnect : Js unit :=
  p ← read sessionPromiseRef;
  match p with
  | Some session => emit (SessionClose session)
  | None => ret tt
  end;;
  m ← read streamRef;
  match m with
  | Some stream => emit (TrackStop stream);; write (set_streamRef None)
  | None => ret tt
  end;;
  n ← read processorRef;
  match n with
  | Some processor =>
      emit (ProcessorDisconnect processor);; write (set_processorRef None)
  | None => ret tt
  end;;
  i ← read inputContextRef;
  match i with
  | Some ctx => emit (ContextClose ctx);; write (set_inputContextRef None)
  | None => ret tt
  end;;
  o ← read audioContextRef;
  match o with
  | Some ctx => emit (ContextClose ctx);; write (set_audioContextRef None)
  | None => ret tt
  end;;
  write (set_sessionPromiseRef None);;
  write (set_isConnected false);;
  write (set_isTalking false);;
  write (set_volume zero);;
  write (set_sourcesRef ∅);;
  write (set_nextStartTimeRef zero).

(** *** connect *)

(** [new AudioContext({ sampleRate })] *)
Definition new_AudioContext (r : option AudioContext) (sampleRate : Z)
    : Js AudioContext :=
  match r with
  | Some ctx => emit (ContextCreate ctx sampleRate);; ret ctx
  | None => throw
  end.

(** The [catch] block of [connect]. *)
Definition connect_catch : Js ConnectStatus :=
  emit (ConsoleError "Failed to connect:");;
  disconnect;;
  ret Failed.

(** [connect], from its call to [await getUserMedia]. *)
Definition connect (env : ConnectEnv) : Js ConnectStatus :=
  c ← read isConnected;
  if c then ret Skipped
  else
    try_catch
      ((if env_client env then ret tt else throw);;
       out ← new_AudioContext (env_outputContext env) 24000;
       write (set_audioContextRef (Some out));;
       inp ← new_AudioContext (env_inputContext env) 16000;
       write (set_inputContextRef (Some inp));;
       emit GetUserMedia;;
       ret AwaitingMicrophone)
      connect_catch.

(** [connect], from the settling of [getUserMedia] ([None]: rejected) to
    its end; [processor] is the node [createScriptProcessor] returns and
    [session] the promise [ai.live.connect] returns. A [null]
    [inputContextRef.current] makes [createMediaStreamSource] a
    [TypeError]. *)
Definition connect_resume (mic : option MediaStream)
    (processor : ScriptProcessorNode) (session : LiveSession)
    : Js ConnectStatus :=
  try_catch
    (stream ← match mic with Some stream => ret stream | None => throw end;
     write (set_streamRef (Some stream));;
     i ← read inputContextRef;
     match i with
     | None => throw
     | Some ctx =>
         emit (ProcessorCreate ctx processor);;
         write (set_processorRef (Some processor));;
         emit VolumeLoopStart;;
         emit (LiveConnect session);;
         write (set_sessionPromiseRef (Some session));;
         ret Started
     end)
    connect_catch.

(** [updateVolume], with [avg] the mean of the analyser's bins; the
    result tells whether it asked for another animation frame. The
    [isConnected] in its guard is the one [connect] closed over, which is
    [false] whenever [connect] got this far. *)
Definition updateVolume (avg : T) : Js bool :=
  m ← read streamRef;
  if negb false && negb (bool_decide (is_Some m)) then ret false
  else write (set_volume avg);; ret true.

(** *** The session callbacks *)

Definition onopen : Js unit :=
  emit (ConsoleLog "Live session connected");;
  write (set_isConnected true).

Definition onclose : Js unit :=
  emit (ConsoleLog "Session closed");;
  disconnect.

Definition onerror : Js unit :=
  emit (ConsoleError "Session error:");;
  disconnect.

(** The ['ended'] listener of [sourceNode]. *)
Definition onended (sourceNode : AudioBufferSourceNode) : Js unit :=
  x ← read sourcesRef;
  write (set_sourcesRef (x ∖ {[sourceNode]}));;
  x' ← read sourcesRef;
  if bool_decide (size x' = 0%nat) then write (set_isTalking false)
  else ret tt.

(** The [onTaskCreated] prop: given the arguments and the application
    state, it returns or throws, and leaves an application state. *)
Context (onTaskCreated : TaskToolArgs -> A -> Completion unit * A).

(** [decodeAudioData(base64ToUint8Array(base64Audio), ctx)] of
    [utils/audio]: the duration of the decoded buffer, or [None] when the
    decoding throws. *)
Context (decodeAudioData : string -> AudioContext -> option T).

(** [onTaskCreated(args)] *)
Definition call_onTaskCreated (args : TaskToolArgs) : Js unit :=
  fun w =>
    let '(r, a) := onTaskCreated args (app w) in
    (r, {| hook := hook w; app := a |}, [TaskCreated args]).

(** The loop over [message.toolCall.functionCalls]. [sessionPromise] is
    the promise of the session whose callback this is; the send is queued
    on it, and [SendToolResponse] records the request. *)
Fixpoint dispatch (sessionPromise : LiveSession) (functionCalls : list FunctionCall)
    : Js unit :=
  match functionCalls with
  | [] => ret tt
  | fc :: rest =>
      (if String.eqb (fc_name fc) "createTask" then
         let args := fc_args fc in
         emit (ConsoleLog "Tool call received:");;
         call_onTaskCreated args;;
         emit (SendToolResponse sessionPromise (fc_id fc) (fc_name fc)
                 "Task created successfully")
       else ret tt);;
      dispatch sessionPromise rest
  end.

(** [await decodeAudioData(...)] *)
Definition decode (base64Audio : string) (ctx : AudioContext) : Js T :=
  match decodeAudioData base64Audio ctx with
  | Some duration => ret duration
  | None => throw
  end.

(** The audio branch of [onmessage], entered when [base64Audio] is truthy
    and [audioContextRef.current] is [ctx]; [currentTime] is
    [ctx.currentTime] and [sourceNode] the node
    [ctx.createBufferSource()] returns. *)
Definition play (base64Audio : string) (ctx : AudioContext) (currentTime : T)
    (sourceNode : AudioBufferSourceNode) : Js unit :=
  write (set_isTalking true);;
  t ← read nextStartTimeRef;
  write (set_nextStartTimeRef (max t currentTime));;
  duration ← decode base64Audio ctx;
  t' ← read nextStartTimeRef;
  emit (SourceStart sourceNode t' duration);;
  x ← read sourcesRef;
  write (set_sourcesRef ({[sourceNode]} ∪ x));;
  t'' ← read nextStartTimeRef;
  write (set_nextStartTimeRef (add t'' duration)).

(** [onmessage], part 1: the tool calls of the message. *)
Definition handleToolCalls (sessionPromise : LiveSession)
    (message : LiveServerMessage) : Js unit :=
  match toolCall message with
  | Some functionCalls => dispatch sessionPromise functionCalls
  | None => ret tt
  end.

(** [onmessage], part 2: the audio of the message. *)
Definition handleAudio (message : LiveServerMessage) (currentTime : T)
    (sourceNode : AudioBufferSourceNode) : Js unit :=
  c ← read audioContextRef;
  match base64Audio_of message, c with
  | Some base64Audio, Some ctx =>
      if truthy base64Audio then play base64Audio ctx currentTime sourceNode
      else ret tt
  | _, _ => ret tt
  end.

(** [onmessage]. A [Thrown] completion is the rejection of the promise
    the [async] callback returns. [decodeAudioData] is a computation, not
    a wait, so the continuation after its [await] runs before the timers
    and events that drive the other callbacks of the hook: the body is
    one step. *)
Definition onmessage (sessionPromise : LiveSession) (message : LiveServerMessage)
    (currentTime : T) (sourceNode : AudioBufferSourceNode) : Js unit :=
  handleToolCalls sessionPromise message;;
  handleAudio message currentTime sourceNode.

(** *** The hook as a transition system *)

(** What can happen to a mounted hook: a call of one of its two
    operations (unmounting calls [disconnect] too), the settling of a
    pending [getUserMedia], a callback of a session, the end of a
    scheduled buffer, an animation frame of the volume loop. *)
Inductive Event :=
| CallConnect (env : ConnectEnv)
| MicrophoneSettled (mic : option MediaStream)
    (processor : ScriptProcessorNode) (session : LiveSession)
| CallDisconnect
| SessionOpen
| SessionMessage (session : LiveSession) (message : LiveServerMessage)
    (currentTime : T) (sourceNode : AudioBufferSourceNode)
| SessionClosed
| SessionError
| SourceEnded (sourceNode : AudioBufferSourceNode)
| AnimationFrame (avg : T).

Definition handle (ev : Event) : Js unit :=
  match ev with
  | CallConnect env => connect env;; ret tt
  | MicrophoneSettled mic processor session =>
      connect_resume mic processor session;; ret tt
  | CallDisconnect => disconnect
  | SessionOpen => onopen
  | SessionMessage session message currentTime sourceNode =>
      onmessage session message currentTime sourceNode
  | SessionClosed => onclose
  | SessionError => onerror
  | SourceEnded sourceNode => onended sourceNode
  | AnimationFrame avg => updateVolume avg;; ret tt
  end.

(** One event: the world after it and what it asked of the outside,
    whether its callback returned or threw. *)
Definition step (w : World) (ev : Event) : World * list Effect :=
  let '(_, w', e) := handle ev w in (w', e).

Fixpoint run (w : World) (evs : list Event) : World * list Effect :=
  match evs with
  | [] => (w, [])
  | ev :: rest =>
      let '(w1, e1) := step w ev in
      let '(w2, e2) := run w1 rest in
      (w2, e1 ++ e2)
  end.

(** *** Readings of the effects *)

(** The buffers scheduled, oldest first, as (start time, duration). *)
Fixpoint schedule (es : list Effect) : list (T * T) :=
  match es with
  | [] => []
  | SourceStart _ when_ duration :: rest => (when_, duration) :: schedule rest
  | _ :: rest => schedule rest
  end.

(** The tool results sent, as (session, correlation id). *)
Fixpoint toolResults (es : list Effect) : list (LiveSession * string) :=
  match es with
  | [] => []
  | SendToolResponse session id _ _ :: rest => (session, id) :: toolResults rest
  | _ :: rest => toolResults rest
  end.

(** The payloads the external callback was invoked with. *)
Fixpoint callbackCalls (es : list Effect) : list TaskToolArgs :=
  match es with
  | [] => []
  | TaskCreated args :: rest => args :: callbackCalls rest
  | _ :: rest => callbackCalls rest
  end.

(** What was written to the console. *)
Fixpoint logged (es : list Effect) : list string :=
  match es with
  | [] => []
  | ConsoleLog text :: rest => text :: logged rest
  | ConsoleError text :: rest => text :: logged rest
  | _ :: rest => logged rest
  end.

(** The calls of a message that name the declared tool. *)
Definition createTask_calls (functionCalls : list FunctionCall)
    : list FunctionCall :=
  List.filter (fun fc => String.eqb (fc_name fc) "createTask") functionCalls.

(** *** Properties of a schedule and of a trace *)

(** Of two buffers scheduled one after the other, the later starts no
    earlier than the earlier ends. *)
Definition no_overlap (l : list (T * T)) : Prop :=
  forall i s1 d1 s2 d2,
    l !! i = Some (s1, d1) -> l !! S i = Some (s2, d2) ->
    leb (add s1 d1) s2 = true.

(** Start times never decrease along the schedule. *)
Definition starts_non_decreasing (l : list (T * T)) : Prop :=
  forall i s1 d1 s2 d2,
    l !! i = Some (s1, d1) -> l !! S i = Some (s2, d2) ->
    leb s1 s2 = true.

Definition is_message (ev : Event) : bool :=
  match ev with
  | SessionMessage _ _ _ _ => true
  | _ => false
  end.

(** Along the trace, a message is delivered only while [isConnected] is
    set, that is between a session's [onopen] and the next teardown. *)
Fixpoint messages_while_open (w : World) (evs : list Event) : Prop :=
  match evs with
  | [] => True
  | ev :: rest =>
      (is_message ev = true -> isConnected (hook w) = true)
      /\ messages_while_open (step w ev).1 rest
  end.

(** *** The lifecycle of the specification *)

(** The specification's states, read off the hook's state, which has no
    field for them: [Open] once [onopen] has set [isConnected];
    [Connecting] while something is held and the session has not opened;
    [Idle] when nothing is held. The specification's [Closing] is the
    inside of [disconnect], which is one step here. *)
Inductive Lifecycle := Idle | Connecting | Open.

Definition holds_nothing (s : State) : bool :=
  bool_decide (sessionPromiseRef s = None) && bool_decide (streamRef s = None)
  && bool_decide (processorRef s = None)
  && bool_decide (inputContextRef s = None)
  && bool_decide (audioContextRef s = None).

Definition lifecycle (s : State) : Lifecycle :=
  if isConnected s then Open
  else if holds_nothing s then Idle
  else Connecting.

(** What [disconnect] releases in state [s], in the order of the code. *)
Definition released (s : State) : list Effect :=
  match sessionPromiseRef s with Some p => [SessionClose p] | None => [] end
  ++ match streamRef s with Some m => [TrackStop m] | None => [] end
  ++ match processorRef s with Some n => [ProcessorDisconnect n] | None => [] end
  ++ match inputContextRef s with Some c => [ContextClose c] | None => [] end
  ++ match audioContextRef s with Some c => [ContextClose c] | None => [] end.

End Hook.

Arguments State : clear implicits.
Arguments World : clear implicits.
Arguments Effect : clear implicits.
Arguments Event : clear implicits.
Arguments Js : clear implicits.

(** ** Properties of the session manager *)

Section HookFacts.

Context {T : Type} `{JsNumber T} {A : Type}.
Context (onTaskCreated : TaskToolArgs -> A -> Completion unit * A).
Context (decodeAudioData : string -> AudioContext -> option T).

Implicit Types (w : World T A) (s : State T) (a : A).

(** *** Order facts *)

Lemma max_ge_l (a b : T) : leb a (max a b) = true.
Proof.
  unfold max. destruct (leb a b) eqn:E; [exact E|apply leb_refl].
Qed.

Lemma max_ge_r (a b : T) : leb b (max a b) = true.
Proof.
  unfold max. destruct (leb a b) eqn:E; [apply leb_refl|].
  destruct (leb_total a b) as [E'|E']; [congruence|exact E'].
Qed.

Lemma max_zero (t : T) : leb zero t = true -> max zero t = t.
Proof. unfold max. now intros ->. Qed.

(** With a clock that does not run backwards, an earlier [Math.max]
    against the clock is absorbed by a later one. *)
Lemma max_max_later (c t1 t2 : T) :
  leb t1 t2 = true -> max (max c t1) t2 = max c t2.
Proof.
  intros H12. unfold max. destruct (leb c t1) eqn:E1.
  - rewrite H12. now rewrite (leb_trans _ _ _ E1 H12).
  - reflexivity.
Qed.

(** *** Laws of the monad, pointwise *)

Lemma bind_ext {X Y} (m : Js T A X) (k k' : X -> Js T A Y) w :
  (forall x w1, k x w1 = k' x w1) -> bind m k w = bind m k' w.
Proof.
  intros Hk. unfold bind. destruct (m w) as [[[x|] w1] e1]; [|reflexivity].
  now rewrite Hk.
Qed.

Lemma bind_assoc {X Y Z} (m : Js T A X) (k : X -> Js T A Y) (h : Y -> Js T A Z) w :
  bind (bind m k) h w = bind m (fun x => bind (k x) h) w.
Proof.
  unfold bind. destruct (m w) as [[[x|] w1] e1]; [|reflexivity].
  destruct (k x w1) as [[[y|] w2] e2]; [|reflexivity].
  destruct (h y w2) as [[r w3] e3]. now rewrite app_assoc.
Qed.

(** *** disconnect *)

Lemma disconnect_eq w :
  disconnect w = (Normal tt, {| hook := initial; app := app w |}, released (hook w)).
Proof.
  destruct w as [s a]. unfold disconnect, released, bind, read, emit, write, ret.
  destruct s as [c k v o i t x p n m]; simpl.
  destruct p, m, n, i, o; reflexivity.
Qed.

(** C5. From every state, [disconnect] returns normally, having asked
    for the release of everything the refs held (the close of the
    session, the stop of the microphone tracks, the disconnection of the
    processing node, the close of the input and of the output context,
    in that order, and nothing else), and leaves the hook idle and holding
    nothing: the session reference, the microphone stream, the
    processing node and both audio contexts are null, the active sound
    set is empty, the cursor is 0, and [isConnected], [isTalking] and
    [volume] are cleared. A second [disconnect] then changes nothing and
    releases nothing. *)
Theorem disconnect_releases_everything w :
  exists w',
    disconnect w = (Normal tt, w', released (hook w)) /\
    (forall session, sessionPromiseRef (hook w) = Some session ->
       SessionClose session ∈ released (hook w)) /\
    (forall stream, streamRef (hook w) = Some stream ->
       TrackStop stream ∈ released (hook w)) /\
    (forall processor, processorRef (hook w) = Some processor ->
       ProcessorDisconnect processor ∈ released (hook w)) /\
    (forall ctx, inputContextRef (hook w) = Some ctx ->
       ContextClose ctx ∈ released (hook w)) /\
    (forall ctx, audioContextRef (hook w) = Some ctx ->
       ContextClose ctx ∈ released (hook w)) /\
    sessionPromiseRef (hook w') = None /\
    streamRef (hook w') = None /\
    processorRef (hook w') = None /\
    inputContextRef (hook w') = None /\
    audioContextRef (hook w') = None /\
    sourcesRef (hook w') = ∅ /\
    nextStartTimeRef (hook w') = zero /\
    isConnected (hook w') = false /\
    isTalking (hook w') = false /\
    volume (hook w') = zero /\
    lifecycle (hook w') = Idle /\
    app w' = app w /\
    disconnect w' = (Normal tt, w', []).
Proof.
  eexists. split; [apply disconnect_eq|].
  repeat (split;
          [intros x Hx; unfold released; rewrite Hx, !elem_of_app,
             !list_elem_of_singleton; tauto|]).
  repeat (split; [reflexivity|]).
  rewrite disconnect_eq. reflexivity.
Qed.

(** *** connect *)

(** C6, as the code has it. In the [Open] state, where [isConnected] is
    set, [connect] returns at its guard: the world is unchanged, nothing
    is asked of the platform (no audio context, no microphone, no
    session), and no continuation is left pending. *)
Theorem connect_when_open_is_noop w env :
  lifecycle (hook w) = Open ->
  connect env w = (Normal Skipped, w, []).
Proof.
  unfold lifecycle, connect, bind, read, ret. intros Hopen.
  destruct (isConnected (hook w)) eqn:Hc; simpl.
  - destruct w; reflexivity.
  - destruct (holds_nothing (hook w)); discriminate.
Qed.

(** *** The tool dispatch *)

(** The dispatch loop writes no field of the hook. *)
Lemma dispatch_hook sess fcs w : hook (dispatch onTaskCreated sess fcs w).1.2 = hook w.
Proof.
  revert w. induction fcs as [|fc rest IH]; intros w; [reflexivity|].
  simpl. unfold bind at 1.
  destruct (String.eqb (fc_name fc) "createTask").
  - unfold bind, emit, call_onTaskCreated; simpl.
    destruct (onTaskCreated (fc_args fc) (app w)) as [[[]|] a]; simpl; [|reflexivity].
    specialize (IH {| hook := hook w; app := a |}).
    destruct (dispatch onTaskCreated sess rest _) as [[r w2] e2]; exact IH.
  - unfold ret; simpl. specialize (IH w).
    destruct (dispatch onTaskCreated sess rest w) as [[r w2] e2]; exact IH.
Qed.

Lemma schedule_app (e1 e2 : list (Effect T)) :
  schedule (e1 ++ e2) = schedule e1 ++ schedule e2.
Proof.
  induction e1 as [|x e1 IH]; [reflexivity|].
  destruct x; simpl; try assumption. now rewrite IH.
Qed.

(** The dispatch loop schedules no buffer. *)
Lemma dispatch_schedule sess fcs w : schedule (dispatch onTaskCreated sess fcs w).2 = [].
Proof.
  revert w. induction fcs as [|fc rest IH]; intros w; [reflexivity|].
  simpl. unfold bind at 1.
  destruct (String.eqb (fc_name fc) "createTask").
  - unfold bind, emit, call_onTaskCreated; simpl.
    destruct (onTaskCreated (fc_args fc) (app w)) as [[[]|] a]; simpl; [|reflexivity].
    specialize (IH {| hook := hook w; app := a |}).
    destruct (dispatch onTaskCreated sess rest _) as [[r w2] e2]; exact IH.
  - unfold ret; simpl. specialize (IH w).
    destruct (dispatch onTaskCreated sess rest w) as [[r w2] e2]; exact IH.
Qed.

(** *** The audio branch *)

Lemma handleAudio_skipped msg t node w :
  match base64Audio_of msg, audioContextRef (hook w) with
  | Some b, Some _ => truthy b = false
  | _, _ => True
  end ->
  handleAudio decodeAudioData msg t node w = (Normal tt, w, []).
Proof.
  unfold handleAudio, bind, read, ret; simpl.
  destruct (base64Audio_of msg) as [b|], (audioContextRef (hook w)) as [ctx|];
    destruct w; try reflexivity.
  intros ->. reflexivity.
Qed.

Lemma handleAudio_decode_failed msg t node w b ctx :
  base64Audio_of msg = Some b -> truthy b = true ->
  audioContextRef (hook w) = Some ctx ->
  decodeAudioData b ctx = None ->
  handleAudio decodeAudioData msg t node w =
    (Thrown,
     {| hook := set_nextStartTimeRef (max (nextStartTimeRef (hook w)) t)
                  (set_isTalking true (hook w));
        app := app w |},
     []).
Proof.
  intros Hb Ht Hc Hd.
  unfold handleAudio, play, decode, bind, read, write, emit, ret, throw; simpl.
  rewrite Hb, Hc, Ht, Hd. reflexivity.
Qed.

Lemma handleAudio_played msg t node w b ctx d :
  base64Audio_of msg = Some b -> truthy b = true ->
  audioContextRef (hook w) = Some ctx ->
  decodeAudioData b ctx = Some d ->
  handleAudio decodeAudioData msg t node w =
    (Normal tt,
     {| hook :=
          set_nextStartTimeRef (add (max (nextStartTimeRef (hook w)) t) d)
            (set_sourcesRef ({[node]} ∪ sourcesRef (hook w))
               (set_nextStartTimeRef (max (nextStartTimeRef (hook w)) t)
                  (set_isTalking true (hook w))));
        app := app w |},
     [SourceStart node (max (nextStartTimeRef (hook w)) t) d]).
Proof.
  intros Hb Ht Hc Hd.
  unfold handleAudio, play, decode, bind, read, write, emit, ret, throw; simpl.
  rewrite Hb, Hc, Ht, Hd. reflexivity.
Qed.

(** What one message does to the hook and to the schedule. *)
Inductive audio_result (s : State T) (t : T) (node : AudioBufferSourceNode)
    : State T -> list (T * T) -> Prop :=
| audio_none : audio_result s t node s []
| audio_failed :
    audio_result s t node
      (set_nextStartTimeRef (max (nextStartTimeRef s) t) (set_isTalking true s))
      []
| audio_played b ctx d :
    decodeAudioData b ctx = Some d ->
    audio_result s t node
      (set_nextStartTimeRef (add (max (nextStartTimeRef s) t) d)
         (set_sourcesRef ({[node]} ∪ sourcesRef s)
            (set_nextStartTimeRef (max (nextStartTimeRef s) t)
               (set_isTalking true s))))
      [(max (nextStartTimeRef s) t, d)].

Lemma handleAudio_result msg t node w :
  audio_result (hook w) t node
    (hook (handleAudio decodeAudioData msg t node w).1.2)
    (schedule (handleAudio decodeAudioData msg t node w).2).
Proof.
  destruct (base64Audio_of msg) as [b|] eqn:Hb;
    [|rewrite handleAudio_skipped by (now rewrite Hb); constructor].
  destruct (audioContextRef (hook w)) as [ctx|] eqn:Hc;
    [|rewrite handleAudio_skipped by (now rewrite Hb, Hc); constructor].
  destruct (truthy b) eqn:Ht;
    [|rewrite handleAudio_skipped by (now rewrite Hb, Hc); constructor].
  destruct (decodeAudioData b ctx) as [d|] eqn:Hd.
  - rewrite (handleAudio_played _ _ _ _ _ _ _ Hb Ht Hc Hd). simpl.
    econstructor; eassumption.
  - rewrite (handleAudio_decode_failed _ _ _ _ _ _ Hb Ht Hc Hd). constructor.
Qed.

Lemma handleToolCalls_hook sess msg w :
  hook (handleToolCalls onTaskCreated sess msg w).1.2 = hook w.
Proof.
  unfold handleToolCalls. destruct (toolCall msg); [apply dispatch_hook|reflexivity].
Qed.

Lemma handleToolCalls_schedule sess msg w :
  schedule (handleToolCalls onTaskCreated sess msg w).2 = [].
Proof.
  unfold handleToolCalls. destruct (toolCall msg); [apply dispatch_schedule|reflexivity].
Qed.

Lemma onmessage_result sess msg t node w :
  audio_result (hook w) t node
    (hook (onmessage onTaskCreated decodeAudioData sess msg t node w).1.2)
    (schedule (onmessage onTaskCreated decodeAudioData sess msg t node w).2).
Proof.
  unfold onmessage, bind.
  pose proof (handleToolCalls_hook sess msg w) as Hh.
  pose proof (handleToolCalls_schedule sess msg w) as Hs.
  destruct (handleToolCalls onTaskCreated sess msg w) as [[[[]|] w1] e1];
    simpl in Hh, Hs.
  - pose proof (handleAudio_result msg t node w1) as Ha.
    destruct (handleAudio decodeAudioData msg t node w1) as [[r2 w2] e2].
    simpl in *. rewrite schedule_app, Hs. simpl. now rewrite <- Hh.
  - simpl. rewrite Hh, Hs. constructor.
Qed.

(** The dispatch loop reads no field of the hook either. *)
Lemma dispatch_frame sess fcs s s' a :
  dispatch onTaskCreated sess fcs {| hook := s'; app := a |} =
    let '(r, w, e) := dispatch onTaskCreated sess fcs {| hook := s; app := a |} in
    (r, {| hook := s'; app := app w |}, e).
Proof.
  revert a. induction fcs as [|fc rest IH]; intros a; [reflexivity|].
  cbn [dispatch]. unfold bind, emit, call_onTaskCreated, ret.
  destruct (String.eqb (fc_name fc) "createTask"); cbn [hook app].
  - destruct (onTaskCreated (fc_args fc) a) as [[[]|] a1]; [|reflexivity].
    rewrite IH.
    now destruct (dispatch onTaskCreated sess rest {| hook := s; app := a1 |})
      as [[r w2] e2].
  - rewrite IH.
    now destruct (dispatch onTaskCreated sess rest {| hook := s; app := a |})
      as [[r w2] e2].
Qed.

Lemma handleToolCalls_frame sess msg s s' a :
  handleToolCalls onTaskCreated sess msg {| hook := s'; app := a |} =
    let '(r, w, e) :=
      handleToolCalls onTaskCreated sess msg {| hook := s; app := a |} in
    (r, {| hook := s'; app := app w |}, e).
Proof.
  unfold handleToolCalls. destruct (toolCall msg); [apply dispatch_frame|reflexivity].
Qed.

Lemma callbackCalls_app (e1 e2 : list (Effect T)) :
  callbackCalls (e1 ++ e2) = callbackCalls e1 ++ callbackCalls e2.
Proof.
  induction e1 as [|x e1 IH]; [reflexivity|].
  destruct x; simpl; try assumption. now rewrite IH.
Qed.

Lemma toolResults_app (e1 e2 : list (Effect T)) :
  toolResults (e1 ++ e2) = toolResults e1 ++ toolResults e2.
Proof.
  induction e1 as [|x e1 IH]; [reflexivity|].
  destruct x; simpl; try assumption. now rewrite IH.
Qed.

(** The audio branch calls no callback, sends no tool result and logs
    nothing. *)
Lemma handleAudio_quiet msg t node w :
  callbackCalls (handleAudio decodeAudioData msg t node w).2 = [] /\
  toolResults (handleAudio decodeAudioData msg t node w).2 = [] /\
  logged (handleAudio decodeAudioData msg t node w).2 = [].
Proof.
  destruct (base64Audio_of msg) as [b|] eqn:Hb;
    [|rewrite handleAudio_skipped by (now rewrite Hb); now repeat split].
  destruct (audioContextRef (hook w)) as [ctx|] eqn:Hc;
    [|rewrite handleAudio_skipped by (now rewrite Hb, Hc); now repeat split].
  destruct (truthy b) eqn:Ht;
    [|rewrite handleAudio_skipped by (now rewrite Hb, Hc); now repeat split].
  destruct (decodeAudioData b ctx) as [d|] eqn:Hd.
  - rewrite (handleAudio_played _ _ _ _ _ _ _ Hb Ht Hc Hd). now repeat split.
  - rewrite (handleAudio_decode_failed _ _ _ _ _ _ Hb Ht Hc Hd). now repeat split.
Qed.

(** The loop over a list of calls is the loop over its front followed by
    the loop over its back. *)
Lemma dispatch_app sess pre post w :
  dispatch onTaskCreated sess (pre ++ post) w =
    bind (dispatch onTaskCreated sess pre)
         (fun _ => dispatch onTaskCreated sess post) w.
Proof.
  revert w. induction pre as [|fc pre IH]; intros w.
  - simpl. unfold bind, ret.
    now destruct (dispatch onTaskCreated sess post w) as [[r w'] e].
  - rewrite <- app_comm_cons. cbn [dispatch].
    rewrite bind_assoc. apply bind_ext. intros _ w1. apply IH.
Qed.

(** One call of the declared tool, by the outcome of the callback. *)
Lemma dispatch_createTask sess fc rest w :
  fc_name fc = "createTask" ->
  dispatch onTaskCreated sess (fc :: rest) w =
    match onTaskCreated (fc_args fc) (app w) with
    | (Normal _, a') =>
        let '(r, w2, e2) :=
          dispatch onTaskCreated sess rest {| hook := hook w; app := a' |} in
        (r, w2,
         [ConsoleLog "Tool call received:"; TaskCreated (fc_args fc);
          SendToolResponse sess (fc_id fc) (fc_name fc)
            "Task created successfully"] ++ e2)
    | (Thrown, a') =>
        (Thrown, {| hook := hook w; app := a' |},
         [ConsoleLog "Tool call received:"; TaskCreated (fc_args fc)])
    end.
Proof.
  intros Hname. cbn [dispatch]. rewrite Hname. simpl String.eqb.
  unfold bind, emit, call_onTaskCreated. cbn [hook app].
  destruct (onTaskCreated (fc_args fc) (app w)) as [[[]|] a']; [|reflexivity].
  cbn [hook app].
  now destruct (dispatch onTaskCreated sess rest {| hook := hook w; app := a' |})
    as [[r w2] e2].
Qed.

(** One call of any other tool. *)
Lemma dispatch_other sess fc rest w :
  fc_name fc <> "createTask" ->
  dispatch onTaskCreated sess (fc :: rest) w = dispatch onTaskCreated sess rest w.
Proof.
  intros Hname. cbn [dispatch].
  apply String.eqb_neq in Hname. rewrite Hname. unfold bind, ret.
  now destruct (dispatch onTaskCreated sess rest w) as [[r w2] e2].
Qed.

Lemma dispatch_returned sess fcs w :
  (dispatch onTaskCreated sess fcs w).1.1 = Normal tt ->
  callbackCalls (dispatch onTaskCreated sess fcs w).2
    = fc_args <$> createTask_calls fcs /\
  toolResults (dispatch onTaskCreated sess fcs w).2
    = (fun fc => (sess, fc_id fc)) <$> createTask_calls fcs.
Proof.
  revert w. induction fcs as [|fc rest IH]; intros w; [now split|].
  unfold createTask_calls. cbn [List.filter]. fold (createTask_calls rest).
  destruct (String.eqb (fc_name fc) "createTask") eqn:Hname.
  - apply String.eqb_eq in Hname. rewrite (dispatch_createTask sess fc rest w Hname).
    destruct (onTaskCreated (fc_args fc) (app w)) as [[[]|] a']; [|discriminate].
    specialize (IH {| hook := hook w; app := a' |}).
    destruct (dispatch onTaskCreated sess rest {| hook := hook w; app := a' |})
      as [[r w2] e2].
    cbn [fst snd] in *. intros Hr. destruct (IH Hr) as [IHc IHt].
    simpl. now rewrite IHc, IHt.
  - apply String.eqb_neq in Hname. rewrite (dispatch_other sess fc rest w Hname).
    apply IH.
Qed.

(** *** The playback cursor *)

(** A schedule whose first buffer starts no earlier than [c], whose
    buffers have durations that are not negative, and in which each
    buffer starts no earlier than the one before it ends. *)
Fixpoint chained (c : T) (l : list (T * T)) : Prop :=
  match l with
  | [] => True
  | (s, d) :: rest =>
      leb c s = true /\ leb zero d = true /\ chained (add s d) rest
  end.

Lemma chained_weaken c c' l :
  leb c c' = true -> chained c' l -> chained c l.
Proof.
  destruct l as [|[s d] rest]; simpl; [trivial|].
  intros Hc (Hs & Hd & Hrest). eauto using leb_trans.
Qed.

Lemma chained_no_overlap c l : chained c l -> no_overlap l.
Proof.
  revert c. induction l as [|[s d] rest IH]; intros c Hl i s1 d1 s2 d2 H1 H2.
  - discriminate.
  - destruct Hl as (_ & _ & Hrest). destruct i as [|i]; simpl in H1, H2.
    + injection H1 as -> ->. destruct rest as [|[s' d'] rest']; [discriminate|].
      injection H2 as -> ->. apply Hrest.
    + eapply IH; eassumption.
Qed.

Lemma chained_starts_non_decreasing c l :
  chained c l -> starts_non_decreasing l.
Proof.
  revert c. induction l as [|[s d] rest IH]; intros c Hl i s1 d1 s2 d2 H1 H2.
  - discriminate.
  - destruct Hl as (_ & Hd & Hrest). destruct i as [|i]; simpl in H1, H2.
    + injection H1 as -> ->. destruct rest as [|[s' d'] rest']; [discriminate|].
      injection H2 as -> ->. destruct Hrest as (Hs' & _).
      eapply leb_trans; [apply add_nonneg, Hd|exact Hs'].
    + eapply IH; eassumption.
Qed.

Lemma step_message sess msg t node w :
  step onTaskCreated decodeAudioData w (SessionMessage sess msg t node) =
    ((onmessage onTaskCreated decodeAudioData sess msg t node w).1.2,
     (onmessage onTaskCreated decodeAudioData sess msg t node w).2).
Proof.
  unfold step; simpl.
  now destruct (onmessage onTaskCreated decodeAudioData sess msg t node w) as [[r w'] e].
Qed.

Lemma run_cons w ev evs :
  run onTaskCreated decodeAudioData w (ev :: evs) =
    ((run onTaskCreated decodeAudioData
        (step onTaskCreated decodeAudioData w ev).1 evs).1,
     (step onTaskCreated decodeAudioData w ev).2
       ++ (run onTaskCreated decodeAudioData
             (step onTaskCreated decodeAudioData w ev).1 evs).2).
Proof.
  cbn [run]. destruct (step onTaskCreated decodeAudioData w ev) as [w1 e1].
  cbn [fst snd]. now destruct (run onTaskCreated decodeAudioData w1 evs) as [w2 e2].
Qed.

Lemma messages_chained :
  (forall b ctx d, decodeAudioData b ctx = Some d -> leb zero d = true) ->
  forall evs w,
    Forall (fun ev => is_message ev = true) evs ->
    chained (nextStartTimeRef (hook w))
      (schedule (run onTaskCreated decodeAudioData w evs).2).
Proof.
  intros Hdur. induction evs as [|ev evs IH]; intros w Hall; [exact I|].
  apply Forall_cons in Hall as [Hev Hall].
  destruct ev; try discriminate.
  rewrite run_cons. cbn [fst snd]. rewrite schedule_app, step_message.
  cbn [fst snd].
  specialize (IH (onmessage onTaskCreated decodeAudioData session message
                    currentTime sourceNode w).1.2 Hall).
  destruct (onmessage_result session message currentTime sourceNode w)
    as [| |b ctx d Hd]; simpl in *.
  - exact IH.
  - eapply chained_weaken; [apply max_ge_l|exact IH].
  - split; [apply max_ge_l|]. split; [eapply Hdur, Hd|exact IH].
Qed.

Lemma message_played w sess msg t node b ctx d :
  base64Audio_of msg = Some b -> truthy b = true ->
  audioContextRef (hook w) = Some ctx ->
  decodeAudioData b ctx = Some d ->
  (handleToolCalls onTaskCreated sess msg w).1.1 = Normal tt ->
  schedule (step onTaskCreated decodeAudioData w
              (SessionMessage sess msg t node)).2
    = [(max (nextStartTimeRef (hook w)) t, d)] /\
  nextStartTimeRef
    (hook (step onTaskCreated decodeAudioData w
             (SessionMessage sess msg t node)).1)
    = add (max (nextStartTimeRef (hook w)) t) d.
Proof.
  intros Hb Ht Hc Hd Htools.
  rewrite step_message. unfold onmessage, bind.
  pose proof (handleToolCalls_hook sess msg w) as Hh.
  pose proof (handleToolCalls_schedule sess msg w) as Hs.
  destruct (handleToolCalls onTaskCreated sess msg w) as [[r1 w1] e1].
  cbn [fst snd] in Htools, Hh, Hs. subst r1.
  rewrite <- Hh in Hc.
  rewrite (handleAudio_played _ _ _ _ _ _ _ Hb Ht Hc Hd). simpl.
  rewrite schedule_app, Hs, Hh. now simpl.
Qed.

(** C1. Buffer durations not being negative: a message whose tool calls
    return and whose audio decodes is scheduled to start at
    [max(cursor, currentTime)], and the cursor is then that start plus
    the buffer's duration; hence, along any sequence of messages, start
    times never decrease and each buffer starts no earlier than the
    previous one ends. *)
Theorem playback_follows_the_cursor :
  (forall b ctx d, decodeAudioData b ctx = Some d -> leb zero d = true) ->
  (forall w sess msg t node b ctx d,
     base64Audio_of msg = Some b -> truthy b = true ->
     audioContextRef (hook w) = Some ctx ->
     decodeAudioData b ctx = Some d ->
     (handleToolCalls onTaskCreated sess msg w).1.1 = Normal tt ->
     let r := step onTaskCreated decodeAudioData w (SessionMessage sess msg t node) in
     schedule r.2 = [(max (nextStartTimeRef (hook w)) t, d)] /\
     nextStartTimeRef (hook r.1) = add (max (nextStartTimeRef (hook w)) t) d)
  /\
  (forall w evs,
     Forall (fun ev => is_message ev = true) evs ->
     starts_non_decreasing (schedule (run onTaskCreated decodeAudioData w evs).2) /\
     no_overlap (schedule (run onTaskCreated decodeAudioData w evs).2)).
Proof.
  intros Hdur. split.
  - intros w sess msg t node b ctx d Hb Ht Hc Hd Htools r. subst r.
    now apply (message_played w sess msg t node b ctx d).
  - intros w evs Hall. pose proof (messages_chained Hdur evs w Hall) as Hch.
    eauto using chained_starts_non_decreasing, chained_no_overlap.
Qed.

(** *** A frame that fails to decode *)

(** The hook state a failed decode leaves, seen from the state before. *)
Definition raised (t : T) (s : State T) : State T :=
  set_nextStartTimeRef (max (nextStartTimeRef s) t) (set_isTalking true s).

(** [s2] is [s1], or [s1] after a failed decode at clock [t]. *)
Definition behind (t : T) (s1 s2 : State T) : Prop :=
  s2 = s1 \/ s2 = raised t s1.

Lemma handleAudio_behind t t' s1 s2 a msg node :
  leb t t' = true -> behind t s1 s2 ->
  let r1 := handleAudio decodeAudioData msg t' node {| hook := s1; app := a |} in
  let r2 := handleAudio decodeAudioData msg t' node {| hook := s2; app := a |} in
  r2.1.1 = r1.1.1 /\ r2.2 = r1.2 /\ app r2.1.2 = app r1.1.2 /\
  behind t (hook r1.1.2) (hook r2.1.2).
Proof.
  intros Hle [->| ->]; [intros r1 r2; repeat split; now left|].
  intros r1 r2. subst r1 r2.
  destruct (base64Audio_of msg) as [b|] eqn:Hb;
    [|rewrite !handleAudio_skipped by (now rewrite Hb);
      repeat split; now right].
  destruct (audioContextRef s1) as [ctx|] eqn:Hc;
    [|rewrite !handleAudio_skipped by (simpl; now rewrite Hb, ?Hc);
      repeat split; now right].
  destruct (truthy b) eqn:Ht;
    [|rewrite !handleAudio_skipped by (simpl; now rewrite Hb, ?Hc);
      repeat split; now right].
  destruct (decodeAudioData b ctx) as [d|] eqn:Hd.
  - rewrite !(handleAudio_played _ _ _ _ b ctx d) by (assumption || exact Hc).
    simpl. rewrite (max_max_later _ _ _ Hle).
    repeat split; left; reflexivity.
  - rewrite !(handleAudio_decode_failed _ _ _ _ b ctx) by (assumption || exact Hc).
    simpl. rewrite (max_max_later _ _ _ Hle).
    repeat split; left; reflexivity.
Qed.

Lemma onmessage_behind t t' s1 s2 a sess msg node :
  leb t t' = true -> behind t s1 s2 ->
  let r1 := onmessage onTaskCreated decodeAudioData sess msg t' node
              {| hook := s1; app := a |} in
  let r2 := onmessage onTaskCreated decodeAudioData sess msg t' node
              {| hook := s2; app := a |} in
  r2.1.1 = r1.1.1 /\ r2.2 = r1.2 /\ app r2.1.2 = app r1.1.2 /\
  behind t (hook r1.1.2) (hook r2.1.2).
Proof.
  intros Hle Hb r1 r2. subst r1 r2. unfold onmessage, bind.
  rewrite (handleToolCalls_frame sess msg s1 s2 a).
  pose proof (handleToolCalls_hook sess msg {| hook := s1; app := a |}) as Hh.
  destruct (handleToolCalls onTaskCreated sess msg {| hook := s1; app := a |})
    as [[[[]|] [s1' a1]] e1]; simpl in Hh; subst s1'; simpl.
  - pose proof (handleAudio_behind t t' s1 s2 a1 msg node Hle Hb) as Ha.
    simpl in Ha.
    destruct (handleAudio decodeAudioData msg t' node {| hook := s1; app := a1 |})
      as [[ra wa] ea].
    destruct (handleAudio decodeAudioData msg t' node {| hook := s2; app := a1 |})
      as [[rb wb] eb].
    simpl in *. destruct Ha as (-> & -> & Happ & Hrel). auto.
  - auto.
Qed.

(** Every event of the trace is a message read at clock [t] or later. *)
Definition messages_from (t : T) (evs : list (Event T)) : Prop :=
  Forall (fun ev =>
            match ev with
            | SessionMessage _ _ t' _ => leb t t' = true
            | _ => False
            end) evs.

Lemma run_behind t evs :
  messages_from t evs ->
  forall s1 s2 a,
    behind t s1 s2 ->
    (run onTaskCreated decodeAudioData {| hook := s2; app := a |} evs).2 =
    (run onTaskCreated decodeAudioData {| hook := s1; app := a |} evs).2.
Proof.
  induction 1 as [|ev evs Hev Hall IH]; intros s1 s2 a Hb; [reflexivity|].
  destruct ev; try contradiction.
  rewrite !run_cons, !step_message. cbn [fst snd].
  pose proof (onmessage_behind t currentTime s1 s2 a session message sourceNode
                Hev Hb) as Hm.
  simpl in Hm.
  destruct (onmessage onTaskCreated decodeAudioData session message currentTime
              sourceNode {| hook := s1; app := a |}) as [[ra [sa aa]] ea].
  destruct (onmessage onTaskCreated decodeAudioData session message currentTime
              sourceNode {| hook := s2; app := a |}) as [[rb [sb ab]] eb].
  simpl in *. destruct Hm as (_ & -> & -> & Hrel).
  f_equal. now apply IH.
Qed.

(** C3, as the code has it. When the audio of a message fails to decode
    (its tool calls having returned), no buffer is scheduled and the set
    of active sources is as before, but the cursor has already been
    synchronised with the clock: it is [max(cursor, currentTime)], which
    is the old cursor only when that was ahead of the clock. Later
    messages, read at clocks that are not earlier, then produce exactly
    the effects, and so the schedule, they would have produced had the
    failed frame carried no audio. *)
Theorem decode_failure_raises_cursor_only w sess msg t node b ctx :
  base64Audio_of msg = Some b -> truthy b = true ->
  audioContextRef (hook w) = Some ctx ->
  decodeAudioData b ctx = None ->
  (handleToolCalls onTaskCreated sess msg w).1.1 = Normal tt ->
  let r := step onTaskCreated decodeAudioData w (SessionMessage sess msg t node) in
  schedule r.2 = [] /\
  sourcesRef (hook r.1) = sourcesRef (hook w) /\
  nextStartTimeRef (hook r.1) = max (nextStartTimeRef (hook w)) t /\
  (leb (nextStartTimeRef (hook w)) t = false ->
   nextStartTimeRef (hook r.1) = nextStartTimeRef (hook w)) /\
  (forall evs,
     messages_from t evs ->
     (run onTaskCreated decodeAudioData r.1 evs).2 =
     (run onTaskCreated decodeAudioData
        {| hook := hook w; app := app r.1 |} evs).2).
Proof.
  intros Hb Ht Hc Hd Htools r. subst r.
  rewrite step_message. unfold onmessage, bind.
  pose proof (handleToolCalls_hook sess msg w) as Hh.
  pose proof (handleToolCalls_schedule sess msg w) as Hs.
  destruct (handleToolCalls onTaskCreated sess msg w) as [[r1 w1] e1].
  simpl in Htools, Hh, Hs. subst r1.
  rewrite <- Hh in Hc.
  rewrite (handleAudio_decode_failed _ _ _ _ _ _ Hb Ht Hc Hd). simpl.
  rewrite app_nil_r, Hs, Hh.
  repeat split.
  - unfold max. now intros ->.
  - intros evs Hevs. apply (run_behind t evs Hevs). now right.
Qed.

(** *** What each event does to the hook *)

(** The four fields of the playback scheduler and of the session flag
    are as before. *)
Definition keeps_playback (s s' : State T) : Prop :=
  isConnected s' = isConnected s /\
  isTalking s' = isTalking s /\
  nextStartTimeRef s' = nextStartTimeRef s /\
  sourcesRef s' = sourcesRef s.

Lemma keeps_playback_refl s : keeps_playback s s.
Proof. repeat split. Qed.

Lemma step_world w ev :
  (step onTaskCreated decodeAudioData w ev).1 =
  (handle onTaskCreated decodeAudioData ev w).1.2.
Proof.
  unfold step. now destruct (handle onTaskCreated decodeAudioData ev w) as [[r w'] e].
Qed.

Lemma bind_ret_world {X} (m : Js T A X) w :
  (bind m (fun _ => ret tt) w).1.2 = (m w).1.2.
Proof. unfold bind, ret. now destruct (m w) as [[[x|] w1] e1]. Qed.

Lemma connect_catch_hook w : hook (connect_catch w).1.2 = initial.
Proof.
  unfold connect_catch, bind, emit, ret; simpl. now rewrite disconnect_eq.
Qed.

Lemma connect_hook env w :
  hook (connect env w).1.2 = initial \/
  keeps_playback (hook w) (hook (connect env w).1.2).
Proof.
  unfold connect, try_catch, new_AudioContext, bind, read, write, emit, ret, throw.
  simpl. destruct (isConnected (hook w)); [right; apply keeps_playback_refl|].
  destruct (env_client env); simpl;
    [|left; rewrite (surjective_pairing (connect_catch w)),
              (surjective_pairing (connect_catch w).1); apply connect_catch_hook].
  destruct (env_outputContext env) as [out|]; simpl;
    [|left; rewrite (surjective_pairing (connect_catch w)),
              (surjective_pairing (connect_catch w).1); apply connect_catch_hook].
  destruct (env_inputContext env) as [inp|]; simpl.
  - right. repeat split.
  - left.
    match goal with |- context [connect_catch ?x] =>
      rewrite (surjective_pairing (connect_catch x)),
              (surjective_pairing (connect_catch x).1); apply connect_catch_hook
    end.
Qed.

Lemma connect_resume_hook mic processor session w :
  hook (connect_resume mic processor session w).1.2 = initial \/
  keeps_playback (hook w) (hook (connect_resume mic processor session w).1.2).
Proof.
  unfold connect_resume, try_catch, bind, read, write, emit, ret, throw.
  destruct mic as [stream|]; simpl;
    [|left; rewrite (surjective_pairing (connect_catch w)),
              (surjective_pairing (connect_catch w).1); apply connect_catch_hook].
  destruct (inputContextRef (hook w)) as [ctx|]; simpl.
  - right. repeat split.
  - left.
    match goal with |- context [connect_catch ?x] =>
      rewrite (surjective_pairing (connect_catch x)),
              (surjective_pairing (connect_catch x).1); apply connect_catch_hook
    end.
Qed.

Lemma updateVolume_hook avg w :
  keeps_playback (hook w) (hook (updateVolume avg w).1.2).
Proof.
  unfold updateVolume, bind, read, write, ret; simpl.
  destruct (bool_decide (is_Some (streamRef (hook w)))); simpl; repeat split.
Qed.

Lemma onopen_eq w :
  onopen w =
    (Normal tt, {| hook := set_isConnected true (hook w); app := app w |},
     [ConsoleLog "Live session connected"]).
Proof. reflexivity. Qed.

Lemma onclose_hook w : hook (onclose w).1.2 = initial.
Proof. unfold onclose, bind, emit; simpl. now rewrite disconnect_eq. Qed.

Lemma onerror_hook w : hook (onerror w).1.2 = initial.
Proof. unfold onerror, bind, emit; simpl. now rewrite disconnect_eq. Qed.

Lemma onended_eq node w :
  onended node w =
    (Normal tt,
     {| hook :=
          if bool_decide (size (sourcesRef (hook w) ∖ {[node]}) = 0%nat)
          then set_isTalking false
                 (set_sourcesRef (sourcesRef (hook w) ∖ {[node]}) (hook w))
          else set_sourcesRef (sourcesRef (hook w) ∖ {[node]}) (hook w);
        app := app w |},
     []).
Proof.
  unfold onended, bind, read, write, ret; simpl.
  now destruct (bool_decide (size (sourcesRef (hook w) ∖ {[node]}) = 0%nat)).
Qed.

(** Every event other than a message and the end of a buffer resets the
    hook, sets [isConnected], or leaves the playback fields alone. *)
Lemma step_hook w ev :
  let s' := hook (step onTaskCreated decodeAudioData w ev).1 in
  match ev with
  | SessionMessage sess msg t node =>
      exists l, audio_result (hook w) t node s' l
  | SourceEnded node =>
      s' = if bool_decide (size (sourcesRef (hook w) ∖ {[node]}) = 0%nat)
           then set_isTalking false
                  (set_sourcesRef (sourcesRef (hook w) ∖ {[node]}) (hook w))
           else set_sourcesRef (sourcesRef (hook w) ∖ {[node]}) (hook w)
  | SessionOpen => s' = set_isConnected true (hook w)
  | _ => s' = initial \/ keeps_playback (hook w) s'
  end.
Proof.
  intros s'. subst s'. rewrite step_world. destruct ev; simpl.
  - rewrite bind_ret_world. apply connect_hook.
  - rewrite bind_ret_world. apply connect_resume_hook.
  - left. now rewrite disconnect_eq.
  - reflexivity.
  - eexists. apply onmessage_result.
  - left. apply onclose_hook.
  - left. apply onerror_hook.
  - now rewrite onended_eq.
  - rewrite bind_ret_world. right. apply updateVolume_hook.
Qed.

(** *** The cursor of a new session *)

(** While the hook is not connected its cursor is 0. *)
Definition cursor_at_rest (s : State T) : Prop :=
  isConnected s = false -> nextStartTimeRef s = zero.

Lemma step_cursor_at_rest w ev :
  (is_message ev = true -> isConnected (hook w) = true) ->
  cursor_at_rest (hook w) ->
  cursor_at_rest (hook (step onTaskCreated decodeAudioData w ev).1).
Proof.
  intros Hmsg Hinv. pose proof (step_hook w ev) as Hstep. simpl in Hstep.
  unfold cursor_at_rest in *.
  destruct ev; simpl in Hmsg;
    try (destruct Hstep as [-> | (Hc & _ & Ht & _)];
         [reflexivity | rewrite Hc, Ht; exact Hinv]).
  - rewrite Hstep. discriminate.
  - specialize (Hmsg eq_refl). destruct Hstep as [l Hres].
    destruct Hres; simpl; congruence.
  - rewrite Hstep. case_bool_decide; exact Hinv.
Qed.

Lemma run_snoc w evs ev :
  (run onTaskCreated decodeAudioData w (evs ++ [ev])).1 =
  (step onTaskCreated decodeAudioData
     (run onTaskCreated decodeAudioData w evs).1 ev).1.
Proof.
  revert w. induction evs as [|ev' evs IH]; intros w.
  - simpl. now destruct (step onTaskCreated decodeAudioData w ev).
  - rewrite <- app_comm_cons, !run_cons. cbn [fst]. apply IH.
Qed.

Lemma run_cursor_at_rest evs w :
  messages_while_open onTaskCreated decodeAudioData w evs ->
  cursor_at_rest (hook w) ->
  cursor_at_rest (hook (run onTaskCreated decodeAudioData w evs).1).
Proof.
  revert w. induction evs as [|ev evs IH]; intros w Hmsgs Hinv; [exact Hinv|].
  destruct Hmsgs as [Hmsg Hrest]. rewrite run_cons. cbn [fst].
  apply IH; [exact Hrest|]. now apply step_cursor_at_rest.
Qed.

(** C7, as the code has it. The cursor is reset by [disconnect], not by
    [onopen]. Along any trace from the mounted hook in which messages are
    handled only while [isConnected] is set, whenever [onopen] switches
    [isConnected] on, the cursor is 0, and a first frame read at a clock
    that is not negative is scheduled to start at that clock. *)
Theorem cursor_is_zero_when_session_opens a evs :
  let w0 := {| hook := initial; app := a |} in
  messages_while_open onTaskCreated decodeAudioData w0 evs ->
  let w := (run onTaskCreated decodeAudioData w0 evs).1 in
  isConnected (hook w) = false ->
  let w' := (step onTaskCreated decodeAudioData w SessionOpen).1 in
  isConnected (hook w') = true /\
  nextStartTimeRef (hook w') = zero /\
  (forall sess msg t node b ctx d,
     leb zero t = true ->
     base64Audio_of msg = Some b -> truthy b = true ->
     audioContextRef (hook w') = Some ctx ->
     decodeAudioData b ctx = Some d ->
     (handleToolCalls onTaskCreated sess msg w').1.1 = Normal tt ->
     schedule (step onTaskCreated decodeAudioData w'
                 (SessionMessage sess msg t node)).2 = [(t, d)]).
Proof.
  intros w0 Hmsgs w Hoff w'.
  assert (Hrest : nextStartTimeRef (hook w) = zero).
  { apply (run_cursor_at_rest evs w0 Hmsgs); [intros _; reflexivity|exact Hoff]. }
  assert (Hw' : hook w' = set_isConnected true (hook w)).
  { apply (step_hook w SessionOpen). }
  split; [now rewrite Hw'|]. split; [now rewrite Hw'|].
  intros sess msg t node b ctx d Ht Hb Htr Hc Hd Htools.
  destruct (message_played w' sess msg t node b ctx d Hb Htr Hc Hd Htools)
    as [Hsched _].
  rewrite Hsched, Hw'. simpl. rewrite Hrest. now rewrite (max_zero _ Ht).
Qed.

(** *** The talking flag *)

(** [isTalking] is set while some source is active. *)
Definition talking_while_active (s : State T) : Prop :=
  sourcesRef s ≠ ∅ -> isTalking s = true.

Lemma step_talking_while_active w ev :
  talking_while_active (hook w) ->
  talking_while_active (hook (step onTaskCreated decodeAudioData w ev).1).
Proof.
  intros Hinv. pose proof (step_hook w ev) as Hstep. simpl in Hstep.
  unfold talking_while_active in *.
  destruct ev;
    try (destruct Hstep as [-> | (_ & Hk & _ & Hx)];
         [intros Hne; now destruct Hne | rewrite Hk, Hx; exact Hinv]).
  - rewrite Hstep. exact Hinv.
  - destruct Hstep as [l Hres]. destruct Hres; simpl; auto.
  - rewrite Hstep. case_bool_decide as Hsz; simpl.
    + intros Hne. destruct Hne. now apply size_empty_inv, leibniz_equiv in Hsz.
    + intros Hne. apply Hinv. intros Hempty. apply Hne.
      rewrite Hempty. apply difference_disjoint_L, disjoint_empty_l.
Qed.

Lemma run_talking_while_active evs w :
  talking_while_active (hook w) ->
  talking_while_active (hook (run onTaskCreated decodeAudioData w evs).1).
Proof.
  revert w. induction evs as [|ev evs IH]; intros w Hinv; [exact Hinv|].
  rewrite run_cons. cbn [fst]. now apply IH, step_talking_while_active.
Qed.

Lemma step_emptied w ev :
  sourcesRef (hook w) ≠ ∅ ->
  sourcesRef (hook (step onTaskCreated decodeAudioData w ev).1) = ∅ ->
  isTalking (hook (step onTaskCreated decodeAudioData w ev).1) = false.
Proof.
  intros Hne. pose proof (step_hook w ev) as Hstep. simpl in Hstep.
  destruct ev;
    try (destruct Hstep as [-> | (_ & _ & _ & Hx)];
         [reflexivity | rewrite Hx; intros Hempty; now destruct Hne]).
  - rewrite Hstep. simpl. intros Hempty; now destruct Hne.
  - destruct Hstep as [l Hres]. destruct Hres; simpl.
    + intros Hempty; now destruct Hne.
    + intros Hempty; now destruct Hne.
    + intros Hempty. exfalso. revert Hempty. apply union_positive_l_alt_L.
      apply non_empty_singleton_L.
  - rewrite Hstep. case_bool_decide as Hsz; simpl; [reflexivity|].
    intros Hempty. destruct Hsz. rewrite Hempty. apply size_empty.
Qed.

Lemma ended_last w node :
  sourcesRef (hook w) = {[node]} ->
  sourcesRef (hook (step onTaskCreated decodeAudioData w (SourceEnded node)).1) = ∅.
Proof.
  intros Hone. pose proof (step_hook w (SourceEnded node)) as Hstep.
  simpl in Hstep. rewrite Hstep.
  case_bool_decide; simpl; rewrite Hone; apply difference_diag_L.
Qed.

(** C8. In every state the mounted hook reaches, [isTalking] is set
    while the set of active sources is not empty; an event that takes the
    set from non-empty to empty leaves [isTalking] cleared when its
    callback returns; and that is what the ['ended'] event of the last
    active source does. *)
Theorem isTalking_follows_active_sources a evs :
  let w := (run onTaskCreated decodeAudioData {| hook := initial; app := a |} evs).1 in
  (sourcesRef (hook w) ≠ ∅ -> isTalking (hook w) = true) /\
  (forall ev,
     let w' := (step onTaskCreated decodeAudioData w ev).1 in
     sourcesRef (hook w) ≠ ∅ -> sourcesRef (hook w') = ∅ ->
     isTalking (hook w') = false) /\
  (forall node,
     let w' := (step onTaskCreated decodeAudioData w (SourceEnded node)).1 in
     sourcesRef (hook w) = {[node]} ->
     sourcesRef (hook w') = ∅ /\ isTalking (hook w') = false).
Proof.
  intros w. split; [|split].
  - apply (run_talking_while_active evs). intros Hne. now destruct Hne.
  - intros ev w'. apply step_emptied.
  - intros node w' Hone.
    assert (Hempty : sourcesRef (hook w') = ∅) by now apply ended_last.
    split; [exact Hempty|].
    apply step_emptied; [|exact Hempty].
    rewrite Hone. apply non_empty_singleton_L.
Qed.

(** *** Tool calls *)

Lemma onmessage_tool_effects sess msg t node w :
  callbackCalls (onmessage onTaskCreated decodeAudioData sess msg t node w).2
    = callbackCalls (handleToolCalls onTaskCreated sess msg w).2 /\
  toolResults (onmessage onTaskCreated decodeAudioData sess msg t node w).2
    = toolResults (handleToolCalls onTaskCreated sess msg w).2.
Proof.
  unfold onmessage, bind.
  destruct (handleToolCalls onTaskCreated sess msg w) as [[[[]|] w1] e1];
    [|now split].
  destruct (handleAudio_quiet msg t node w1) as (Hc & Ht & _).
  destruct (handleAudio decodeAudioData msg t node w1) as [[r2 w2] e2].
  cbn [fst snd] in *.
  now rewrite callbackCalls_app, toolResults_app, Hc, Ht, !app_nil_r.
Qed.

(** C4, as the code has it. At a [createTask] call that the loop
    reaches, its earlier calls having been dispatched and returned from,
    and on which the callback returns: the callback is invoked once, with
    the payload of the call and on the application state the earlier
    calls left, a tool result with the id of the call is then sent on the
    session that delivered the message, and the loop goes on to the
    later calls from the state the callback left. Among the effects of
    the message, between those of the earlier calls and those of the
    later ones, the call thus has exactly one invocation of the callback
    and exactly one tool result. *)
Theorem createTask_call_is_answered w sess msg t node pre fc rest w1 e1 a' :
  toolCall msg = Some (pre ++ fc :: rest) ->
  fc_name fc = "createTask" ->
  dispatch onTaskCreated sess pre w = (Normal tt, w1, e1) ->
  onTaskCreated (fc_args fc) (app w1) = (Normal tt, a') ->
  let later := dispatch onTaskCreated sess rest {| hook := hook w; app := a' |} in
  handleToolCalls onTaskCreated sess msg w =
    (later.1.1, later.1.2,
     e1 ++ [ConsoleLog "Tool call received:"; TaskCreated (fc_args fc);
            SendToolResponse sess (fc_id fc) (fc_name fc)
              "Task created successfully"] ++ later.2) /\
  callbackCalls (onmessage onTaskCreated decodeAudioData sess msg t node w).2 =
    callbackCalls e1 ++ fc_args fc :: callbackCalls later.2 /\
  toolResults (onmessage onTaskCreated decodeAudioData sess msg t node w).2 =
    toolResults e1 ++ (sess, fc_id fc) :: toolResults later.2.
Proof.
  intros Hmsg Hname Hpre Hcb later.
  pose proof (dispatch_hook sess pre w) as Hh. rewrite Hpre in Hh. cbn [fst snd] in Hh.
  assert (Hloop : handleToolCalls onTaskCreated sess msg w =
                  (later.1.1, later.1.2,
                   e1 ++ [ConsoleLog "Tool call received:"; TaskCreated (fc_args fc);
                          SendToolResponse sess (fc_id fc) (fc_name fc)
                            "Task created successfully"] ++ later.2)).
  { unfold handleToolCalls. rewrite Hmsg, dispatch_app. unfold bind.
    rewrite Hpre, (dispatch_createTask sess fc rest w1 Hname), Hcb, Hh.
    subst later.
    now destruct (dispatch onTaskCreated sess rest {| hook := hook w; app := a' |})
      as [[r w2] e2]. }
  split; [exact Hloop|].
  destruct (onmessage_tool_effects sess msg t node w) as [-> ->].
  rewrite Hloop. cbn [snd].
  now rewrite callbackCalls_app, toolResults_app.
Qed.

(** C2, as the code has it. At a [createTask] call reached by the loop:
    if the callback throws, the exception ends the handling of the
    message, so that no tool result is sent for the call, the calls after
    it are not dispatched and the audio of the message is not played; if
    the callback returns, one tool result with the call's id is sent. *)
Theorem throwing_callback_ends_the_message w sess msg t node pre fc rest w1 e1 a' :
  toolCall msg = Some (pre ++ fc :: rest) ->
  fc_name fc = "createTask" ->
  dispatch onTaskCreated sess pre w = (Normal tt, w1, e1) ->
  (onTaskCreated (fc_args fc) (app w1) = (Thrown, a') ->
   onmessage onTaskCreated decodeAudioData sess msg t node w =
     (Thrown, {| hook := hook w; app := a' |},
      e1 ++ [ConsoleLog "Tool call received:"; TaskCreated (fc_args fc)]))
  /\
  (onTaskCreated (fc_args fc) (app w1) = (Normal tt, a') ->
   toolResults (onmessage onTaskCreated decodeAudioData sess msg t node w).2 =
     toolResults e1 ++ (sess, fc_id fc)
       :: toolResults
            (dispatch onTaskCreated sess rest {| hook := hook w; app := a' |}).2).
Proof.
  intros Hmsg Hname Hpre.
  pose proof (dispatch_hook sess pre w) as Hh. rewrite Hpre in Hh. cbn [fst snd] in Hh.
  assert (Hloop : handleToolCalls onTaskCreated sess msg w =
                  bind (fun _ => (Normal tt, w1, e1))
                       (fun _ => dispatch onTaskCreated sess (fc :: rest)) w).
  { unfold handleToolCalls. rewrite Hmsg, dispatch_app. unfold bind.
    now rewrite Hpre. }
  split; intros Hcb.
  - unfold onmessage. unfold bind at 1. rewrite Hloop. unfold bind.
    rewrite (dispatch_createTask sess fc rest w1 Hname), Hcb, Hh. reflexivity.
  - destruct (onmessage_tool_effects sess msg t node w) as [_ ->].
    rewrite Hloop. unfold bind.
    rewrite (dispatch_createTask sess fc rest w1 Hname), Hcb, Hh.
    destruct (dispatch onTaskCreated sess rest {| hook := hook w; app := a' |})
      as [[r w2] e2].
    cbn [fst snd]. now rewrite toolResults_app.
Qed.

(** C9, as the code has it. A call that names another tool is skipped
    without a trace: the message is handled exactly as the same message
    without that call, so the callback is not invoked for it, no tool
    result is sent for it and nothing is logged for it, and the calls
    after it and the audio are handled as usual. *)
Theorem unknown_tool_is_skipped w sess msg t node pre fc post :
  fc_name fc <> "createTask" ->
  toolCall msg = Some (pre ++ fc :: post) ->
  onmessage onTaskCreated decodeAudioData sess msg t node w =
  onmessage onTaskCreated decodeAudioData sess
    {| toolCall := Some (pre ++ post); serverContent := serverContent msg |}
    t node w.
Proof.
  intros Hname Hmsg. unfold onmessage. 
  assert (Htools : handleToolCalls onTaskCreated sess msg w =
                   handleToolCalls onTaskCreated sess
                     {| toolCall := Some (pre ++ post);
                        serverContent := serverContent msg |} w).
  { unfold handleToolCalls. rewrite Hmsg. cbn [toolCall].
    rewrite !dispatch_app. apply bind_ext. intros _ w1.
    now apply dispatch_other. }
  unfold bind. rewrite Htools.
  destruct (handleToolCalls _ _ _ w) as [[[[]|] w1] e1]; [|reflexivity].
  reflexivity.
Qed.

End HookFacts.

(** ** A session, concretely

    Times are integers; the application counts the tasks it was handed;
    the decoder gives a buffer as long as its payload and rejects the
    payload ["!"]. *)

Definition counting : TaskToolArgs -> nat -> Completion unit * nat :=
  fun _ n => (Normal tt, S n).

Definition throwing : TaskToolArgs -> nat -> Completion unit * nat :=
  fun _ n => (Thrown, n).

Definition by_length : string -> AudioContext -> option Z :=
  fun b _ => if String.eqb b "!" then None else Some (Z.of_nat (String.length b)).

Definition audio_message (b : string) : LiveServerMessage :=
  {| toolCall := None;
     serverContent :=
       Some {| modelTurn :=
                 Some {| parts := Some [{| inlineData := Some {| data := Some b |} |}] |} |} |}.

Definition tool_message (fcs : list FunctionCall) : LiveServerMessage :=
  {| toolCall := Some fcs; serverContent := None |}.

Definition buy_milk : TaskToolArgs :=
  {| args_title := "Buy milk"; args_date := Some "2025-03-10";
     args_time := None; args_priority := Some "High" |}.

Definition create_call : FunctionCall :=
  {| fc_id := "call-1"; fc_name := "createTask"; fc_args := buy_milk |}.

Definition delete_call : FunctionCall :=
  {| fc_id := "call-2"; fc_name := "deleteTask"; fc_args := buy_milk |}.

Definition platform : ConnectEnv :=
  {| env_client := true; env_outputContext := Some 1%nat;
     env_inputContext := Some 2%nat |}.

Definition platform_again : ConnectEnv :=
  {| env_client := true; env_outputContext := Some 11%nat;
     env_inputContext := Some 12%nat |}.

Definition mounted : World Z nat := {| hook := initial; app := 0%nat |}.

(** [connect()] has run to its end; [onopen] has not fired. *)
Definition connecting : World Z nat :=
  (run counting by_length mounted
     [CallConnect platform; MicrophoneSettled (Some 3%nat) 4%nat 5%nat]).1.

(** The session is open. *)
Definition opened : World Z nat :=
  (step counting by_length connecting SessionOpen).1.

(** A first session played a frame and was closed; [connect()] has run
    again. *)
Definition reconnecting : list (Event Z) :=
  [CallConnect platform; MicrophoneSettled (Some 3%nat) 4%nat 5%nat;
   SessionOpen;
   SessionMessage 5%nat (audio_message "abcd") 10%Z 7%nat;
   CallDisconnect;
   CallConnect platform_again; MicrophoneSettled (Some 13%nat) 14%nat 15%nat].

Example opened_state :
  hook opened =
    {| isConnected := true; isTalking := false; volume := 0%Z;
       audioContextRef := Some 1%nat; inputContextRef := Some 2%nat;
       nextStartTimeRef := 0%Z; sourcesRef := ∅;
       sessionPromiseRef := Some 5%nat; processorRef := Some 4%nat;
       streamRef := Some 3%nat |}.
Proof. reflexivity. Qed.

Example three_frames_schedule :
  schedule
    (run counting by_length opened
       [SessionMessage 5%nat (audio_message "abcd") 10%Z 7%nat;
        SessionMessage 5%nat (audio_message "xy") 11%Z 8%nat;
        SessionMessage 5%nat (audio_message "pqr") 40%Z 9%nat]).2
  = [(10, 4); (14, 2); (40, 3)]%Z.
Proof. reflexivity. Qed.

Lemma by_length_nonneg b ctx d : by_length b ctx = Some d -> leb zero d = true.
Proof.
  unfold by_length. destruct (String.eqb b "!"); intros [= <-].
  apply Z.leb_le. change (0 <= Z.of_nat (String.length b))%Z. lia.
Qed.

(** C1 on three frames, the middle one arriving while the first still
    plays. *)
Lemma playback_follows_the_cursor_witness :
  let frames :=
    [SessionMessage 5%nat (audio_message "abcd") 10%Z 7%nat;
     SessionMessage 5%nat (audio_message "xy") 11%Z 8%nat;
     SessionMessage 5%nat (audio_message "pqr") 40%Z 9%nat] in
  starts_non_decreasing (schedule (run counting by_length opened frames).2) /\
  no_overlap (schedule (run counting by_length opened frames).2).
Proof.
  apply (playback_follows_the_cursor counting by_length by_length_nonneg).
  repeat constructor.
Defined.

(** C2: with a callback that throws, the [createTask] call gets no tool
    result. *)
Lemma throwing_callback_sends_no_result :
  fc_name create_call = "createTask" /\
  throwing (fc_args create_call) (app opened) = (Thrown, app opened) /\
  toolResults
    (step throwing by_length opened
       (SessionMessage 5%nat (tool_message [create_call]) 0%Z 7%nat)).2 = [] /\
  callbackCalls
    (step throwing by_length opened
       (SessionMessage 5%nat (tool_message [create_call]) 0%Z 7%nat)).2 = [buy_milk].
Proof. repeat split. Qed.

Lemma throwing_callback_ends_the_message_witness :
  onmessage throwing by_length 5%nat (tool_message [create_call]) 0%Z 7%nat opened =
    (Thrown, opened, [ConsoleLog "Tool call received:"; TaskCreated buy_milk]).
Proof.
  apply (throwing_callback_ends_the_message throwing by_length opened 5%nat
           (tool_message [create_call]) 0%Z 7%nat [] create_call [] opened []
           (app opened));
    reflexivity.
Defined.

(** C3: the cursor was 0 and the clock read 5 when the decoding failed;
    the cursor is 5 afterwards. *)
Lemma decode_failure_moves_cursor :
  by_length "!" 1%nat = None /\
  nextStartTimeRef (hook opened) = 0%Z /\
  nextStartTimeRef
    (hook (step counting by_length opened
             (SessionMessage 5%nat (audio_message "!") 5%Z 7%nat)).1) = 5%Z.
Proof. repeat split. Qed.

Lemma decode_failure_raises_cursor_only_witness :
  let r := step counting by_length opened
             (SessionMessage 5%nat (audio_message "!") 5%Z 7%nat) in
  schedule r.2 = [] /\
  nextStartTimeRef (hook r.1) = 5%Z /\
  (run counting by_length r.1
     [SessionMessage 5%nat (audio_message "abcd") 10%Z 8%nat]).2 =
  (run counting by_length opened
     [SessionMessage 5%nat (audio_message "abcd") 10%Z 8%nat]).2.
Proof.
  destruct (decode_failure_raises_cursor_only counting by_length opened 5%nat
              (audio_message "!") 5%Z 7%nat "!" 1%nat
              eq_refl eq_refl eq_refl eq_refl eq_refl)
    as (Hsched & _ & Hcursor & _ & Hlater).
  split; [exact Hsched|]. split; [exact Hcursor|].
  apply (Hlater [SessionMessage 5%nat (audio_message "abcd") 10%Z 8%nat]).
  repeat constructor.
Defined.

(** C4: the callback throws on the second payload only; in a message
    that carries that call and then the call with the first payload, the
    first payload, on which the callback would return, is never handed
    to the callback and gets no tool result. *)
Definition call_boom : TaskToolArgs :=
  {| args_title := "boom"; args_date := None; args_time := None;
     args_priority := None |}.

Definition boom_call : FunctionCall :=
  {| fc_id := "call-0"; fc_name := "createTask"; fc_args := call_boom |}.

Definition throwing_on_boom : TaskToolArgs -> nat -> Completion unit * nat :=
  fun args n =>
    if String.eqb (args_title args) "boom" then (Thrown, n) else (Normal tt, S n).

Lemma call_after_a_throw_is_dropped :
  fc_name create_call = "createTask" /\
  throwing_on_boom (fc_args create_call) (app opened) = (Normal tt, 1%nat) /\
  callbackCalls
    (step throwing_on_boom by_length opened
       (SessionMessage 5%nat (tool_message [boom_call; create_call]) 0%Z 7%nat)).2
  = [call_boom] /\
  toolResults
    (step throwing_on_boom by_length opened
       (SessionMessage 5%nat (tool_message [boom_call; create_call]) 0%Z 7%nat)).2
  = [].
Proof. repeat split. Qed.

(** C4 on the payload of the specification. *)
Lemma createTask_call_is_answered_witness :
  let e := (onmessage counting by_length 5%nat (tool_message [create_call])
              0%Z 7%nat opened).2 in
  callbackCalls e = [buy_milk] /\ toolResults e = [(5%nat, "call-1")].
Proof.
  exact (proj2 (createTask_call_is_answered counting by_length opened 5%nat
                  (tool_message [create_call]) 0%Z 7%nat [] create_call []
                  opened [] 1%nat eq_refl eq_refl eq_refl eq_refl)).
Defined.

(** C6: a second [connect()] before [onopen] runs the whole set-up
    again, with new audio contexts, a new microphone request and, once
    that settles, a second session. *)
Lemma connect_while_connecting_starts_again :
  lifecycle (hook connecting) = Connecting /\
  (connect platform_again connecting).1.1 = Normal AwaitingMicrophone /\
  run counting by_length connecting
    [CallConnect platform_again; MicrophoneSettled (Some 13%nat) 14%nat 15%nat]
  = ({| hook :=
          {| isConnected := false; isTalking := false; volume := 0%Z;
             audioContextRef := Some 11%nat; inputContextRef := Some 12%nat;
             nextStartTimeRef := 0%Z; sourcesRef := ∅;
             sessionPromiseRef := Some 15%nat; processorRef := Some 14%nat;
             streamRef := Some 13%nat |};
        app := 0%nat |},
     [ContextCreate 11%nat 24000; ContextCreate 12%nat 16000; GetUserMedia;
      ProcessorCreate 12%nat 14%nat; VolumeLoopStart; LiveConnect 15%nat]).
Proof. repeat split. Qed.

Lemma connect_when_open_is_noop_witness :
  connect platform_again opened = (Normal Skipped, opened, []).
Proof. apply (connect_when_open_is_noop opened platform_again). reflexivity. Defined.

(** C7: [connect()] was called twice before the first session opened, so
    that [disconnect] closed the second session only (the first one, 5,
    is not among the sessions closed); after a new [connect()] a message
    of the first session is played before the new session opens, and
    [onopen] finds the cursor at 14. *)
Definition platform_third : ConnectEnv :=
  {| env_client := true; env_outputContext := Some 21%nat;
     env_inputContext := Some 22%nat |}.

Definition session_left_open : list (Event Z) :=
  [CallConnect platform; MicrophoneSettled (Some 3%nat) 4%nat 5%nat;
   CallConnect platform_again; MicrophoneSettled (Some 13%nat) 14%nat 15%nat;
   SessionOpen;
   CallDisconnect;
   CallConnect platform_third; MicrophoneSettled (Some 23%nat) 24%nat 25%nat;
   SessionMessage 5%nat (audio_message "abcd") 10%Z 7%nat].

Lemma stale_cursor_when_session_opens :
  let before_disconnect :=
    (run counting by_length mounted (take 5 session_left_open)).1 in
  let w := (run counting by_length mounted session_left_open).1 in
  (step counting by_length before_disconnect CallDisconnect).2 =
    [SessionClose 15%nat; TrackStop 13%nat; ProcessorDisconnect 14%nat;
     ContextClose 12%nat; ContextClose 11%nat] /\
  isConnected (hook w) = false /\
  isConnected (hook (step counting by_length w SessionOpen).1) = true /\
  nextStartTimeRef (hook (step counting by_length w SessionOpen).1) = 14%Z.
Proof. repeat split. Qed.

(** C7 on a second session: the first one left the cursor at 14, and
    [disconnect] reset it. *)
Lemma cursor_is_zero_when_session_opens_witness :
  nextStartTimeRef
    (hook (run counting by_length mounted
             [CallConnect platform; MicrophoneSettled (Some 3%nat) 4%nat 5%nat;
              SessionOpen;
              SessionMessage 5%nat (audio_message "abcd") 10%Z 7%nat]).1) = 14%Z /\
  nextStartTimeRef
    (hook (step counting by_length
             (run counting by_length mounted reconnecting).1 SessionOpen).1) = 0%Z.
Proof.
  split; [reflexivity|].
  refine (proj1 (proj2 (cursor_is_zero_when_session_opens counting by_length
                          0%nat reconnecting _ _))).
  - vm_compute. intuition congruence.
  - reflexivity.
Defined.

(** C9: a call of an unknown tool leaves no trace at all, not even in
    the console. *)
Lemma unknown_tool_is_not_logged :
  fc_name delete_call = "deleteTask" /\
  step counting by_length opened
    (SessionMessage 5%nat (tool_message [delete_call]) 0%Z 7%nat) = (opened, []) /\
  logged
    (step counting by_length opened
       (SessionMessage 5%nat (tool_message [delete_call]) 0%Z 7%nat)).2 = [].
Proof. repeat split. Qed.

Lemma unknown_tool_is_skipped_witness :
  onmessage counting by_length 5%nat
    (tool_message [delete_call; create_call]) 0%Z 7%nat opened =
  onmessage counting by_length 5%nat
    (tool_message [create_call]) 0%Z 7%nat opened.
Proof.
  apply (unknown_tool_is_skipped counting by_length opened 5%nat
           (tool_message [delete_call; create_call]) 0%Z 7%nat
           [] delete_call [create_call]).
  - discriminate.
  - reflexivity.
Defined.

End LiveManager.

(** ** Properties of the task list *)

Module AppFacts.
Import Types App.




(** The three sample tasks [App] starts with, their dates left out. *)
Definition sample_tasks : list Task :=
  [ {| id := "1"; title := "Pay electric bill (Overdue)"; date := None;
       time := None; priority := "High"; status := "pending";
       createdAt := 0 |};
    {| id := "2"; title := "Evening gym session (Today)"; date := None;
       time := Some "6:00 PM"; priority := "Medium"; status := "pending";
       createdAt := 0 |};
    {| id := "3"; title := "Grocery shopping"; date := None;
       time := None; priority := "Low"; status := "pending";
       createdAt := 0 |} ].

Definition call_dentist : TaskToolArgs :=
  {| args_title := "Call dentist"; args_date := None; args_time := None;
     args_priority := None |}.


End AppFacts.

(** ** More of the session manager

    The whole of [connect] when nothing interleaves with its [await], the
    mic button of [App], and what the callbacks do to the resources, the
    volume and the schedule beyond the properties above. *)

Module Session.
Import Num Types LiveManager.

Local Set Warnings "-clear-no-such-hyp".

Section SessionFacts.

Context {T : Type} `{JsNumber T} {A : Type}.
Context (onTaskCreated : TaskToolArgs -> A -> Completion unit * A).
Context (decodeAudioData : string -> AudioContext -> option T).

Implicit Types (w : World T A) (s : State T) (a : A).

(** [connect] from its call to its end, [getUserMedia] settling before
    any other callback runs. *)
Definition connect_uninterrupted (env : ConnectEnv) (mic : option MediaStream)
    (processor : ScriptProcessorNode) (session : LiveSession)
    : Js T A ConnectStatus :=
  bind (connect env) (fun st =>
    match st with
    | AwaitingMicrophone => connect_resume mic processor session
    | _ => ret st
    end).

(** [toggleConnection] of [App], the handler of the mic button. *)
Definition toggleConnection (env : ConnectEnv) : Js T A unit :=
  bind (read isConnected) (fun c =>
    if c then disconnect
    else bind (connect env) (fun _ => ret tt)).

(** The five references to resources. *)
Definition same_refs (s s' : State T) : Prop :=
  sessionPromiseRef s' = sessionPromiseRef s /\
  streamRef s' = streamRef s /\
  processorRef s' = processorRef s /\
  inputContextRef s' = inputContextRef s /\
  audioContextRef s' = audioContextRef s.

(** The events of an open session: they come from the session, from a
    playing buffer or from the volume loop, not from the user. *)
Definition is_session_event (ev : Event T) : bool :=
  match ev with
  | SessionOpen | SessionMessage _ _ _ _ | SourceEnded _ | AnimationFrame _ => true
  | _ => false
  end.

Lemma same_refs_refl s : same_refs s s.
Proof. repeat split. Qed.

Lemma same_refs_trans s1 s2 s3 :
  same_refs s1 s2 -> same_refs s2 s3 -> same_refs s1 s3.
Proof.
  unfold same_refs. intros (?&?&?&?&?) (?&?&?&?&?). repeat split; congruence.
Qed.

Lemma session_event_same_refs w ev :
  is_session_event ev = true ->
  same_refs (hook w) (hook (step onTaskCreated decodeAudioData w ev).1).
Proof.
  intros Hev. pose proof (step_hook onTaskCreated decodeAudioData w ev) as Hstep.
  simpl in Hstep. destruct ev; try discriminate.
  - rewrite Hstep. repeat split.
  - destruct Hstep as [l Hres]. destruct Hres; repeat split.
  - rewrite Hstep. case_bool_decide; repeat split.
  - rewrite step_world. simpl. rewrite bind_ret_world.
    unfold updateVolume, bind, read, write, ret; simpl.
    destruct (bool_decide (is_Some (streamRef (hook w)))); repeat split.
Qed.

Lemma session_events_same_refs evs w :
  Forall (fun ev => is_session_event ev = true) evs ->
  same_refs (hook w) (hook (run onTaskCreated decodeAudioData w evs).1).
Proof.
  revert w. induction evs as [|ev evs IH]; intros w Hall; [apply same_refs_refl|].
  apply Forall_cons in Hall as [Hev Hall]. rewrite run_cons. cbn [fst].
  eapply same_refs_trans; [apply session_event_same_refs, Hev|apply IH, Hall].
Qed.

Lemma run_app w evs1 evs2 :
  run onTaskCreated decodeAudioData w (evs1 ++ evs2) =
    ((run onTaskCreated decodeAudioData
        (run onTaskCreated decodeAudioData w evs1).1 evs2).1,
     (run onTaskCreated decodeAudioData w evs1).2 ++
     (run onTaskCreated decodeAudioData
        (run onTaskCreated decodeAudioData w evs1).1 evs2).2).
Proof.
  revert w. induction evs1 as [|ev evs1 IH]; intros w.
  - simpl. now destruct (run onTaskCreated decodeAudioData w evs2).
  - rewrite <- app_comm_cons, !run_cons. cbn [fst snd]. rewrite IH.
    cbn [fst snd]. now rewrite app_assoc.
Qed.

(** X1. Whatever the session does between a [connect] from the idle hook
    and the [disconnect] that follows (opening, messages, buffers ending,
    volume frames), that [disconnect] releases exactly what the [connect]
    acquired, in the order session, microphone, processor, input context,
    output context, and leaves the hook as it was at mount. *)
Theorem disconnect_releases_what_connect_acquired
    a out inp stream processor session evs :
  Forall (fun ev => is_session_event ev = true) evs ->
  let env := {| env_client := true; env_outputContext := Some out;
                env_inputContext := Some inp |} in
  let w := (run onTaskCreated decodeAudioData {| hook := initial; app := a |}
              ([CallConnect env; MicrophoneSettled (Some stream) processor session]
               ++ evs)).1 in
  hook (step onTaskCreated decodeAudioData w CallDisconnect).1 = initial /\
  (step onTaskCreated decodeAudioData w CallDisconnect).2 =
    [SessionClose session; TrackStop stream; ProcessorDisconnect processor;
     ContextClose inp; ContextClose out].
Proof.
  intros Hall env w.
  assert (Hrefs : same_refs
            {| isConnected := false; isTalking := false; volume := zero;
               audioContextRef := Some out; inputContextRef := Some inp;
               nextStartTimeRef := zero; sourcesRef := ∅;
               sessionPromiseRef := Some session; processorRef := Some processor;
               streamRef := Some stream |} (hook w)).
  { subst w. rewrite run_app. cbn [fst].
    apply (session_events_same_refs evs
             {| hook := {| isConnected := false; isTalking := false; volume := zero;
                           audioContextRef := Some out; inputContextRef := Some inp;
                           nextStartTimeRef := zero; sourcesRef := ∅;
                           sessionPromiseRef := Some session;
                           processorRef := Some processor;
                           streamRef := Some stream |};
                app := a |} Hall). }
  destruct Hrefs as (Hp & Hm & Hn & Hi & Ho). simpl in Hp, Hm, Hn, Hi, Ho.
  unfold step. simpl. rewrite disconnect_eq. cbn [fst snd hook].
  unfold released. now rewrite Hp, Hm, Hn, Hi, Ho.
Qed.

(** X2. A [connect] from the idle hook, run to its end, either starts a
    session (every platform call having succeeded) or fails, and then
    the hook is as at mount, every audio context the call created has
    been closed, and neither a processor nor a session was created. It
    never returns at its guard. *)
Theorem failed_connect_leaves_nothing a env mic processor session :
  let r := connect_uninterrupted env mic processor session
             {| hook := initial; app := a |} in
  (r.1.1 = Normal Started /\
   env_client env = true /\ is_Some (env_outputContext env) /\
   is_Some (env_inputContext env) /\ is_Some mic)
  \/
  (r.1.1 = Normal Failed /\
   hook r.1.2 = initial /\
   (forall ctx rate, ContextCreate ctx rate ∈ r.2 -> ContextClose ctx ∈ r.2) /\
   (forall ctx processor', ProcessorCreate ctx processor' ∉ r.2) /\
   (forall session', LiveConnect session' ∉ r.2)).
Proof.
  destruct env as [[|] [out|] [inp|]], mic as [stream|]; cbn.
  all: try (left; repeat split; eauto; fail).
  all: right; split; [reflexivity|]; split; [reflexivity|].
  all: repeat split; intros; rewrite ?elem_of_cons, ?elem_of_nil in *;
    naive_solver.
Qed.

(** X3. The mic button pressed twice before the first session opens
    starts two sessions, and the press that follows [onopen] releases
    the second set of resources only: the hook is as at mount while the
    first session, stream, processor and contexts were never released. *)
Theorem second_press_leaks_first_session
    a out1 inp1 stream1 processor1 session1
    out2 inp2 stream2 processor2 session2 env3 :
  let env1 := {| env_client := true; env_outputContext := Some out1;
                 env_inputContext := Some inp1 |} in
  let env2 := {| env_client := true; env_outputContext := Some out2;
                 env_inputContext := Some inp2 |} in
  let w1 := (toggleConnection env1 {| hook := initial; app := a |}).1.2 in
  let w2 := (connect_resume (Some stream1) processor1 session1 w1).1.2 in
  let w3 := (toggleConnection env2 w2).1.2 in
  let w4 := (connect_resume (Some stream2) processor2 session2 w3).1.2 in
  let w5 := (onopen w4).1.2 in
  (toggleConnection env2 w2).2 =
    [ContextCreate out2 24000; ContextCreate inp2 16000; GetUserMedia] /\
  (connect_resume (Some stream2) processor2 session2 w3).2 =
    [ProcessorCreate inp2 processor2; VolumeLoopStart; LiveConnect session2] /\
  toggleConnection env3 w5 =
    (Normal tt, {| hook := initial; app := a |},
     [SessionClose session2; TrackStop stream2; ProcessorDisconnect processor2;
      ContextClose inp2; ContextClose out2]).
Proof. repeat split. Qed.

(** *** The volume *)

(** Without a microphone stream the volume shown is 0. *)
Definition silent_without_stream (s : State T) : Prop :=
  streamRef s = None -> volume s = zero.

Lemma connect_stream env w :
  hook (connect env w).1.2 = initial \/
  (streamRef (hook (connect env w).1.2) = streamRef (hook w) /\
   volume (hook (connect env w).1.2) = volume (hook w)).
Proof.
  unfold connect, try_catch, new_AudioContext, connect_catch, bind, read, write,
    emit, ret, throw.
  simpl. destruct (isConnected (hook w)); [now right|].
  destruct (env_client env); simpl; [|left; now rewrite disconnect_eq].
  destruct (env_outputContext env) as [out|]; simpl;
    [|left; now rewrite disconnect_eq].
  destruct (env_inputContext env) as [inp|]; simpl;
    [now right|left; now rewrite disconnect_eq].
Qed.

Lemma connect_resume_stream mic processor session w :
  hook (connect_resume mic processor session w).1.2 = initial \/
  is_Some (streamRef (hook (connect_resume mic processor session w).1.2)).
Proof.
  unfold connect_resume, try_catch, connect_catch, bind, read, write, emit, ret, throw.
  destruct mic as [stream|]; simpl; [|left; now rewrite disconnect_eq].
  destruct (inputContextRef (hook w)) as [ctx|]; simpl;
    [right; eauto|left; now rewrite disconnect_eq].
Qed.

Lemma step_silent_without_stream w ev :
  silent_without_stream (hook w) ->
  silent_without_stream (hook (step onTaskCreated decodeAudioData w ev).1).
Proof.
  intros Hinv. unfold silent_without_stream in *.
  destruct ev.
  - rewrite step_world. simpl. rewrite bind_ret_world.
    destruct (connect_stream env w) as [-> | [-> ->]]; [reflexivity|exact Hinv].
  - rewrite step_world. simpl. rewrite bind_ret_world.
    destruct (connect_resume_stream mic processor session w) as [-> | [m ->]];
      [reflexivity|discriminate].
  - rewrite step_world. simpl. now rewrite disconnect_eq.
  - rewrite step_world. simpl. exact Hinv.
  - pose proof (step_hook onTaskCreated decodeAudioData w
                  (SessionMessage session message currentTime sourceNode)) as Hs.
    simpl in Hs. destruct Hs as [l Hres]. destruct Hres; exact Hinv.
  - rewrite step_world. simpl. now rewrite onclose_hook.
  - rewrite step_world. simpl. now rewrite onerror_hook.
  - pose proof (step_hook onTaskCreated decodeAudioData w (SourceEnded sourceNode)) as Hs.
    simpl in Hs. rewrite Hs. case_bool_decide; exact Hinv.
  - rewrite step_world. simpl. rewrite bind_ret_world.
    unfold updateVolume, bind, read, write, ret; simpl.
    destruct (streamRef (hook w)) as [m|] eqn:Hm; simpl.
    + rewrite Hm. discriminate.
    + intros _. now apply Hinv.
Qed.

(** X4. In every state the mounted hook reaches, if no microphone stream
    is held the volume is 0, and a pending frame of the volume loop then
    changes nothing and asks for no further frame: after a teardown the
    loop dies out and the meter stays at rest. *)
Theorem volume_rests_without_stream a evs :
  let w := (run onTaskCreated decodeAudioData {| hook := initial; app := a |} evs).1 in
  streamRef (hook w) = None ->
  volume (hook w) = zero /\
  forall avg, updateVolume avg w = (Normal false, w, []).
Proof.
  intros w Hnone. split.
  - revert Hnone. subst w.
    assert (Hgen : forall (w0 : World T A),
              silent_without_stream (hook w0) ->
              silent_without_stream
                (hook (run onTaskCreated decodeAudioData w0 evs).1)).
    { induction evs as [|ev evs IH]; intros w0 Hinv; [exact Hinv|].
      rewrite run_cons. cbn [fst]. now apply IH, step_silent_without_stream. }
    apply Hgen. intros _. reflexivity.
  - intros avg. unfold updateVolume, bind, read, ret. rewrite Hnone. simpl.
    now destruct w.
Qed.

(** *** Messages after a teardown *)

(** X5. A message handled after [disconnect] has no audio effect: nothing
    is scheduled and the hook is untouched; but its tool calls are
    dispatched as in an open session, callback and tool result included,
    so [onmessage] is then just its tool-call part. *)
Theorem late_message_is_tool_calls_only w sess msg t node :
  let w' := (disconnect w).1.2 in
  onmessage onTaskCreated decodeAudioData sess msg t node w' =
    handleToolCalls onTaskCreated sess msg w' /\
  hook (onmessage onTaskCreated decodeAudioData sess msg t node w').1.2 = initial /\
  schedule (onmessage onTaskCreated decodeAudioData sess msg t node w').2 = [].
Proof.
  intros w'.
  assert (Hw' : hook w' = initial) by (subst w'; now rewrite disconnect_eq).
  assert (Heq : onmessage onTaskCreated decodeAudioData sess msg t node w' =
                handleToolCalls onTaskCreated sess msg w').
  { unfold onmessage, bind.
    pose proof (handleToolCalls_hook onTaskCreated sess msg w') as Hh.
    destruct (handleToolCalls onTaskCreated sess msg w') as [[[[]|] w1] e1];
      [|reflexivity].
    cbn [fst snd] in Hh.
    rewrite handleAudio_skipped.
    - now rewrite app_nil_r.
    - rewrite Hh, Hw'. simpl. now destruct (base64Audio_of msg). }
  rewrite Heq. split; [reflexivity|]. split.
  - now rewrite handleToolCalls_hook.
  - apply handleToolCalls_schedule.
Qed.

(** *** Order of callbacks and tool results *)



(** *** Start times *)

Definition cursor_not_negative (s : State T) : Prop :=
  leb zero (nextStartTimeRef s) = true.

Lemma released_schedule s : schedule (released s) = [].
Proof.
  unfold released.
  now destruct (sessionPromiseRef s), (streamRef s), (processorRef s),
    (inputContextRef s), (audioContextRef s).
Qed.

Lemma connect_catch_eq w :
  connect_catch w =
    (Normal Failed, {| hook := initial; app := app w |},
     ConsoleError "Failed to connect:" :: released (hook w)).
Proof.
  unfold connect_catch, bind, emit, ret. rewrite disconnect_eq. simpl.
  now rewrite app_nil_r.
Qed.

(** Only a message schedules a buffer. *)
Lemma step_schedule_other w ev :
  is_message ev = false ->
  schedule (step onTaskCreated decodeAudioData w ev).2 = [].
Proof.
  intros Hev. unfold step. destruct ev; try discriminate; simpl.
  - unfold connect, try_catch, new_AudioContext, bind, read, write,
      emit, ret, throw; simpl.
    destruct (isConnected (hook w)); [reflexivity|].
    destruct (env_client env); simpl;
      [|rewrite connect_catch_eq; simpl; rewrite ?app_nil_r; apply released_schedule].
    destruct (env_outputContext env) as [out|]; simpl;
      [|rewrite connect_catch_eq; simpl; rewrite ?app_nil_r; apply released_schedule].
    destruct (env_inputContext env) as [inp|]; simpl; [reflexivity|].
    rewrite connect_catch_eq; simpl. rewrite ?app_nil_r. apply released_schedule.
  - unfold connect_resume, try_catch, bind, read, write, emit, ret,
      throw; simpl.
    destruct mic as [stream|]; simpl;
      [|rewrite connect_catch_eq; simpl; rewrite ?app_nil_r; apply released_schedule].
    destruct (inputContextRef (hook w)) as [ctx|]; simpl; [reflexivity|].
    rewrite connect_catch_eq; simpl. rewrite ?app_nil_r. apply released_schedule.
  - rewrite disconnect_eq. apply released_schedule.
  - reflexivity.
  - unfold onclose, bind, emit. rewrite disconnect_eq. simpl. apply released_schedule.
  - unfold onerror, bind, emit. rewrite disconnect_eq. simpl. apply released_schedule.
  - now rewrite onended_eq.
  - unfold updateVolume, bind, read, write, ret; simpl.
    now destruct (bool_decide (is_Some (streamRef (hook w)))).
Qed.

Lemma step_starts_not_negative w ev :
  (forall b ctx d, decodeAudioData b ctx = Some d -> leb zero d = true) ->
  cursor_not_negative (hook w) ->
  cursor_not_negative (hook (step onTaskCreated decodeAudioData w ev).1) /\
  Forall (fun p => leb zero p.1 = true)
    (schedule (step onTaskCreated decodeAudioData w ev).2).
Proof.
  intros Hdur Hinv. unfold cursor_not_negative in *.
  pose proof (step_hook onTaskCreated decodeAudioData w ev) as Hstep.
  simpl in Hstep.
  destruct (is_message ev) eqn:Hmsg.
  - destruct ev; try discriminate. clear Hstep.
    rewrite step_message. cbn [fst snd].
    destruct (onmessage_result onTaskCreated decodeAudioData session message
                currentTime sourceNode w) as [| |b ctx d Hd]; simpl.
    + split; [exact Hinv|constructor].
    + split; [|constructor]. eapply leb_trans; [exact Hinv|apply max_ge_l].
    + assert (Hstart : leb zero (max (nextStartTimeRef (hook w)) currentTime) = true)
        by (eapply leb_trans; [exact Hinv|apply max_ge_l]).
      split; [|repeat constructor; exact Hstart].
      eapply leb_trans; [exact Hstart|]. eapply add_nonneg, Hdur, Hd.
  - rewrite (step_schedule_other w ev Hmsg). split; [|constructor].
    destruct ev; try discriminate;
      try (destruct Hstep as [-> | (_ & _ & -> & _)];
           [apply leb_refl | exact Hinv]).
    + rewrite Hstep. exact Hinv.
    + rewrite Hstep. case_bool_decide; exact Hinv.
Qed.

(** X7. Buffer durations not being negative: in every run of the mounted
    hook the cursor is never negative and no buffer is ever started at a
    negative time, whatever the clock readings. *)
Theorem starts_are_never_negative a evs :
  (forall b ctx d, decodeAudioData b ctx = Some d -> leb zero d = true) ->
  let r := run onTaskCreated decodeAudioData {| hook := initial; app := a |} evs in
  leb zero (nextStartTimeRef (hook r.1)) = true /\
  Forall (fun p => leb zero p.1 = true) (schedule r.2).
Proof.
  intros Hdur.
  assert (Hgen : forall (w : World T A),
            cursor_not_negative (hook w) ->
            cursor_not_negative (hook (run onTaskCreated decodeAudioData w evs).1) /\
            Forall (fun p => leb zero p.1 = true)
              (schedule (run onTaskCreated decodeAudioData w evs).2)).
  { induction evs as [|ev evs IH]; intros w Hinv; [split; [exact Hinv|constructor]|].
    rewrite run_cons. cbn [fst snd]. rewrite schedule_app.
    destruct (step_starts_not_negative w ev Hdur Hinv) as [Hinv1 Hs1].
    destruct (IH _ Hinv1) as [Hinv2 Hs2].
    split; [exact Hinv2|]. apply Forall_app. now split. }
  apply Hgen. apply leb_refl.
Qed.

(** X8. Playback is gapless when frames arrive in time: if the second of
    two decoded frames is read while the clock is still before the end of
    the first, it starts exactly where the first ends. *)
Theorem frame_in_time_starts_at_previous_end
    w sess sc1 t1 node1 b1 d1 sc2 t2 node2 b2 d2 ctx :
  let msg1 := {| toolCall := None; serverContent := sc1 |} in
  let msg2 := {| toolCall := None; serverContent := sc2 |} in
  let start1 := max (nextStartTimeRef (hook w)) t1 in
  audioContextRef (hook w) = Some ctx ->
  base64Audio_of msg1 = Some b1 -> truthy b1 = true ->
  decodeAudioData b1 ctx = Some d1 ->
  base64Audio_of msg2 = Some b2 -> truthy b2 = true ->
  decodeAudioData b2 ctx = Some d2 ->
  leb (add start1 d1) t2 = false ->
  schedule (run onTaskCreated decodeAudioData w
              [SessionMessage sess msg1 t1 node1;
               SessionMessage sess msg2 t2 node2]).2
    = [(start1, d1); (add start1 d1, d2)].
Proof.
  intros msg1 msg2 start1 Hc Hb1 Ht1 Hd1 Hb2 Ht2 Hd2 Hlate.
  rewrite !run_cons. cbn [fst snd run]. rewrite app_nil_r, schedule_app.
  destruct (message_played onTaskCreated decodeAudioData w sess msg1 t1 node1
              b1 ctx d1 Hb1 Ht1 Hc Hd1 eq_refl) as [Hs1 Hc1].
  set (w1 := (step onTaskCreated decodeAudioData w
                (SessionMessage sess msg1 t1 node1)).1) in *.
  assert (Hctx1 : audioContextRef (hook w1) = Some ctx).
  { subst w1. rewrite step_message. cbn [fst]. unfold onmessage, bind.
    cbn [handleToolCalls toolCall msg1]. unfold ret at 1.
    rewrite (handleAudio_played decodeAudioData _ _ _ _ _ _ _ Hb1 Ht1 Hc Hd1).
    exact Hc. }
  destruct (message_played onTaskCreated decodeAudioData w1 sess msg2 t2 node2
              b2 ctx d2 Hb2 Ht2 Hctx1 Hd2 eq_refl) as [Hs2 _].
  rewrite Hs1, Hs2, Hc1. fold start1. unfold max. now rewrite Hlate.
Qed.

(** An event that can clear [isTalking]: the end of a buffer, or a
    teardown ([connect] tears down when it fails). *)
Definition may_clear_talking (ev : Event T) : bool :=
  match ev with
  | SessionOpen | SessionMessage _ _ _ _ | AnimationFrame _ => false
  | _ => true
  end.

Lemma step_keeps_talking w ev :
  may_clear_talking ev = false ->
  isTalking (hook w) = true ->
  isTalking (hook (step onTaskCreated decodeAudioData w ev).1) = true.
Proof.
  intros Hev Htalk.
  pose proof (step_hook onTaskCreated decodeAudioData w ev) as Hstep.
  simpl in Hstep. destruct ev; try discriminate.
  - now rewrite Hstep.
  - destruct Hstep as [l Hres]. now destruct Hres.
  - rewrite step_world. simpl. rewrite bind_ret_world.
    now destruct (updateVolume_hook avg w) as (_ & -> & _).
Qed.

(** X9. A frame that fails to decode still raises [isTalking] and adds no
    source. Handled with no source active, it leaves the hook showing
    the agent as talking with nothing playing, and the flag then stays
    up through every later message, [onopen] and volume frame: only the
    end of a buffer or a teardown clears it. *)
Theorem failed_decode_raises_talking w sess msg t node b ctx :
  base64Audio_of msg = Some b -> truthy b = true ->
  audioContextRef (hook w) = Some ctx ->
  decodeAudioData b ctx = None ->
  (handleToolCalls onTaskCreated sess msg w).1.1 = Normal tt ->
  let w' := (step onTaskCreated decodeAudioData w (SessionMessage sess msg t node)).1 in
  isTalking (hook w') = true /\
  sourcesRef (hook w') = sourcesRef (hook w) /\
  (forall evs, Forall (fun ev => may_clear_talking ev = false) evs ->
     isTalking (hook (run onTaskCreated decodeAudioData w' evs).1) = true).
Proof.
  intros Hb Ht Hc Hd Htools w'.
  assert (Hw' : hook w' =
                set_nextStartTimeRef (max (nextStartTimeRef (hook w)) t)
                  (set_isTalking true (hook w))).
  { subst w'. rewrite step_message. cbn [fst]. unfold onmessage, bind.
    pose proof (handleToolCalls_hook onTaskCreated sess msg w) as Hh.
    destruct (handleToolCalls onTaskCreated sess msg w) as [[r1 w1] e1].
    cbn [fst snd] in Htools, Hh. subst r1. rewrite <- Hh in Hc.
    rewrite (handleAudio_decode_failed decodeAudioData _ _ _ _ _ _ Hb Ht Hc Hd).
    simpl. now rewrite Hh. }
  split; [now rewrite Hw'|]. split; [now rewrite Hw'|].
  assert (Htalk : isTalking (hook w') = true) by now rewrite Hw'.
  clearbody w'. clear Hw'. intros evs. revert w' Htalk.
  induction evs as [|ev evs IH]; intros w' Htalk Hall; [exact Htalk|].
  apply Forall_cons in Hall as [Hev Hall].
  rewrite run_cons. cbn [fst]. apply IH; [|exact Hall].
  now apply step_keeps_talking.
Qed.

End SessionFacts.

(** *** The properties on the session of the examples *)

Definition between : list (Event Z) :=
  [SessionOpen;
   SessionMessage 5%nat (audio_message "abcd") 10%Z 7%nat;
   AnimationFrame 30%Z;
   SourceEnded 7%nat].

Lemma disconnect_releases_what_connect_acquired_witness :
  (step counting by_length
     (run counting by_length mounted
        ([CallConnect platform; MicrophoneSettled (Some 3%nat) 4%nat 5%nat]
         ++ between)).1
     CallDisconnect).2 =
  [SessionClose 5%nat; TrackStop 3%nat; ProcessorDisconnect 4%nat;
   ContextClose 2%nat; ContextClose 1%nat].
Proof.
  refine (proj2 (disconnect_releases_what_connect_acquired counting by_length
                   0%nat 1%nat 2%nat 3%nat 4%nat 5%nat between _)).
  repeat constructor.
Defined.

Definition metered_then_closed : list (Event Z) :=
  [CallConnect platform; MicrophoneSettled (Some 3%nat) 4%nat 5%nat;
   SessionOpen; AnimationFrame 42%Z; CallDisconnect].

Example volume_while_metering :
  volume (hook (run counting by_length mounted (take 4 metered_then_closed)).1) = 42%Z.
Proof. reflexivity. Qed.

Lemma volume_rests_without_stream_witness :
  let w := (run counting by_length mounted metered_then_closed).1 in
  volume (hook w) = 0%Z /\
  updateVolume 17%Z w = (Normal false, w, []).
Proof.
  destruct (volume_rests_without_stream counting by_length 0%nat
              metered_then_closed eq_refl) as [Hvol Hloop].
  split; [exact Hvol|apply Hloop].
Defined.

Lemma starts_are_never_negative_witness :
  Forall (fun p => leb zero p.1 = true)
    (schedule (run counting by_length mounted
                 (reconnecting ++
                  [SessionOpen;
                   SessionMessage 15%nat (audio_message "xy") 3%Z 8%nat])).2).
Proof.
  refine (proj2 (starts_are_never_negative counting by_length 0%nat _ _)).
  exact by_length_nonneg.
Defined.

Lemma frame_in_time_starts_at_previous_end_witness :
  schedule (run counting by_length opened
              [SessionMessage 5%nat (audio_message "abcd") 10%Z 7%nat;
               SessionMessage 5%nat (audio_message "xy") 11%Z 8%nat]).2
  = [(10, 4); (14, 2)]%Z.
Proof.
  exact (frame_in_time_starts_at_previous_end counting by_length opened 5%nat
           (serverContent (audio_message "abcd")) 10%Z 7%nat "abcd" 4%Z
           (serverContent (audio_message "xy")) 11%Z 8%nat "xy" 2%Z 1%nat
           eq_refl eq_refl eq_refl eq_refl eq_refl eq_refl eq_refl eq_refl).
Defined.

Lemma failed_decode_raises_talking_witness :
  let w' := (step counting by_length opened
               (SessionMessage 5%nat (audio_message "!") 5%Z 7%nat)).1 in
  isTalking (hook opened) = false /\
  isTalking (hook w') = true /\
  sourcesRef (hook w') = ∅.
Proof.
  destruct (failed_decode_raises_talking counting by_length opened 5%nat
              (audio_message "!") 5%Z 7%nat "!" 1%nat
              eq_refl eq_refl eq_refl eq_refl eq_refl) as (Htalk & Hsrc & _).
  split; [reflexivity|]. split; [exact Htalk|exact Hsrc].
Defined.

End Session.

(** ** The task list of [App]

    [toggleTask], [deleteTask] and the two filtered views of [App.tsx],
    each as the function it hands to [setTasks] (or computes at render)
    applied to the current list. *)

Module TaskList.
Import Types App.

(** [{ ...t, status: t.status === 'completed' ? 'pending' : 'completed' }] *)
Definition toggled (t : Task) : Task :=
  {| id := id t; title := title t; date := date t; time := time t;
     priority := priority t;
     status := if String.eqb (status t) "completed" then "pending" else "completed";
     createdAt := createdAt t |}.

(** [toggleTask] *)
Definition toggleTask (id0 : string) (prev : list Task) : list Task :=
  List.map (fun t => if String.eqb (id t) id0 then toggled t else t) prev.

(** [deleteTask] *)
Definition deleteTask (id0 : string) (prev : list Task) : list Task :=
  List.filter (fun t => negb (String.eqb (id t) id0)) prev.

(** [pendingTasks] and [completedTasks] *)
Definition pendingTasks (tasks : list Task) : list Task :=
  List.filter (fun t => String.eqb (status t) "pending") tasks.

Definition completedTasks (tasks : list Task) : list Task :=
  List.filter (fun t => String.eqb (status t) "completed") tasks.

(** What the user and the agent can do to the list. *)
Inductive Action :=
| Create (uuid : string) (now : Z) (args : TaskToolArgs)
| Toggle (id0 : string)
| Delete (id0 : string).

Definition act (tasks : list Task) (a : Action) : list Task :=
  match a with
  | Create uuid now args => handleCreateTask uuid now args tasks
  | Toggle id0 => toggleTask id0 tasks
  | Delete id0 => deleteTask id0 tasks
  end.

(** A status of the [Task] type. *)
Definition status_ok (t : Task) : Prop :=
  status t = "pending" \/ status t = "completed".

Lemma toggled_twice t : status_ok t -> toggled (toggled t) = t.
Proof. destruct t as [i ti d tm p st c]. unfold status_ok. simpl. now intros [-> | ->]. Qed.

Lemma toggled_id t : id (toggled t) = id t.
Proof. reflexivity. Qed.

(** X10. Toggling a task twice restores the list, provided the tasks with
    that id have a status of the [Task] type; every other task is never
    touched. *)
Theorem toggleTask_twice_restores id0 tasks :
  (forall t, t ∈ tasks -> id t = id0 -> status_ok t) ->
  toggleTask id0 (toggleTask id0 tasks) = tasks.
Proof.
  induction tasks as [|t rest IH]; intros Hok; [reflexivity|].
  simpl. rewrite IH by (intros t' Hin; apply Hok; now right).
  destruct (String.eqb (id t) id0) eqn:Hid.
  - rewrite toggled_id, Hid. f_equal. apply toggled_twice.
    apply Hok; [now left|now apply String.eqb_eq].
  - now rewrite Hid.
Qed.

(** X11. [toggleTask] changes nothing but statuses: the list keeps its
    length and order, a task with another id is the same task, and a task
    with the given id differs at most in its status, which becomes
    ['pending'] if it was ['completed'] and ['completed'] otherwise. *)
Theorem toggleTask_changes_status_only id0 tasks :
  Forall2
    (fun t t' =>
       id t' = id t /\ title t' = title t /\ date t' = date t /\
       time t' = time t /\ priority t' = priority t /\
       createdAt t' = createdAt t /\
       (id t <> id0 -> t' = t) /\
       (id t = id0 ->
        status t' = if String.eqb (status t) "completed" then "pending"
                    else "completed"))
    tasks (toggleTask id0 tasks).
Proof.
  induction tasks as [|t rest IH]; simpl; constructor; [|exact IH].
  destruct (String.eqb (id t) id0) eqn:Hid.
  - apply String.eqb_eq in Hid.
    repeat split; try reflexivity; intros Hne; contradiction.
  - apply String.eqb_neq in Hid.
    repeat split; try reflexivity; intros Heq; contradiction.
Qed.

Lemma deleteTask_absent id0 tasks :
  id0 ∉ (id <$> tasks) -> deleteTask id0 tasks = tasks.
Proof.
  induction tasks as [|t rest IH]; intros Hfresh; [reflexivity|].
  simpl. rewrite fmap_cons, not_elem_of_cons in Hfresh. destruct Hfresh as [Hne Hrest].
  assert (Hid : String.eqb (id t) id0 = false) by (apply String.eqb_neq; congruence).
  rewrite Hid. simpl. now rewrite IH.
Qed.

(** X12. Deleting the task [handleCreateTask] has just added gives back
    the list as it was, when the new id is one no task of the list had;
    deleting an id that no task has changes nothing. *)
Theorem create_then_delete_restores uuid now args prev :
  uuid ∉ (id <$> prev) ->
  deleteTask uuid (handleCreateTask uuid now args prev) = prev /\
  deleteTask uuid prev = prev.
Proof.
  intros Hfresh. split; [|now apply deleteTask_absent].
  unfold handleCreateTask. simpl. rewrite String.eqb_refl. simpl.
  now apply deleteTask_absent.
Qed.

Lemma toggleTask_absent id0 tasks :
  id0 ∉ (id <$> tasks) -> toggleTask id0 tasks = tasks.
Proof.
  induction tasks as [|t rest IH]; intros Hfresh; [reflexivity|].
  rewrite fmap_cons, not_elem_of_cons in Hfresh. destruct Hfresh as [Hne Hrest].
  assert (Hid : String.eqb (id t) id0 = false) by (apply String.eqb_neq; congruence).
  cbn [toggleTask List.map]. rewrite Hid. f_equal. now apply IH.
Qed.

(** X13. When the ids of the list are pairwise distinct, the two handlers
    act on the one card they were called for: [deleteTask] removes
    exactly the task at that position, and [toggleTask] replaces exactly
    that task by its toggled copy. *)
Theorem handlers_touch_one_card tasks k t :
  NoDup (id <$> tasks) ->
  tasks !! k = Some t ->
  deleteTask (id t) tasks = delete k tasks /\
  toggleTask (id t) tasks = <[k := toggled t]> tasks.
Proof.
  revert k. induction tasks as [|t0 rest IH]; intros k Hnd Hk; [discriminate|].
  rewrite fmap_cons in Hnd. apply NoDup_cons in Hnd as [Hfresh Hnd].
  destruct k as [|k]; simpl in Hk.
  - injection Hk as ->. cbn [deleteTask toggleTask List.filter List.map].
    rewrite String.eqb_refl. cbn [negb].
    fold (deleteTask (id t) rest). fold (toggleTask (id t) rest).
    now rewrite deleteTask_absent, toggleTask_absent.
  - assert (Hne : String.eqb (id t0) (id t) = false).
    { apply String.eqb_neq. intros Heq. apply Hfresh. rewrite Heq.
      apply list_elem_of_fmap. exists t. split; [reflexivity|].
      eapply list_elem_of_lookup_2, Hk. }
    destruct (IH k Hnd Hk) as [Hdel Htog].
    cbn [deleteTask toggleTask List.filter List.map]. rewrite Hne. cbn [negb].
    fold (deleteTask (id t) rest). fold (toggleTask (id t) rest).
    now rewrite Hdel, Htog.
Qed.

Lemma toggleTask_ids id0 tasks : id <$> toggleTask id0 tasks = id <$> tasks.
Proof.
  induction tasks as [|t rest IH]; [reflexivity|].
  cbn [toggleTask List.map]. rewrite !fmap_cons. fold (toggleTask id0 rest).
  rewrite IH. now destruct (String.eqb (id t) id0).
Qed.

Lemma deleteTask_ids_sublist id0 tasks :
  sublist (id <$> deleteTask id0 tasks) (id <$> tasks).
Proof.
  induction tasks as [|t rest IH]; [constructor|].
  cbn [deleteTask List.filter].
  destruct (negb (String.eqb (id t) id0)); rewrite !fmap_cons.
  - now apply sublist_skip.
  - now apply sublist_cons.
Qed.

(** An action that does not reuse an id. *)
Definition fresh_for (tasks : list Task) (a : Action) : Prop :=
  match a with
  | Create uuid _ _ => uuid ∉ (id <$> tasks)
  | _ => True
  end.

(** Every creation of the sequence brings an id the list does not have
    at that point. *)
Fixpoint all_fresh (tasks : list Task) (actions : list Action) : Prop :=
  match actions with
  | [] => True
  | a :: rest => fresh_for tasks a /\ all_fresh (act tasks a) rest
  end.

(** X16. Ids stay pairwise distinct: from a list with distinct ids, any
    sequence of creations (each with an id not yet in the list), toggles
    and deletions gives a list with distinct ids. *)
Theorem ids_stay_distinct tasks actions :
  NoDup (id <$> tasks) ->
  all_fresh tasks actions ->
  NoDup (id <$> fold_left act actions tasks).
Proof.
  revert tasks. induction actions as [|a rest IH]; intros tasks Hnd Hfresh;
    [exact Hnd|].
  destruct Hfresh as [Ha Hrest]. simpl. apply IH; [|exact Hrest].
  destruct a as [uuid now args|id0|id0]; simpl.
  - rewrite NoDup_cons. now split.
  - now rewrite toggleTask_ids.
  - eapply sublist_NoDup; [exact Hnd|apply deleteTask_ids_sublist].
Qed.

(** X14. [toggleTask] and [deleteTask] commute, for the same id or for
    different ones. *)
Theorem toggle_and_delete_commute id0 id1 tasks :
  deleteTask id0 (toggleTask id1 tasks) = toggleTask id1 (deleteTask id0 tasks).
Proof.
  induction tasks as [|t rest IH]; [reflexivity|]. simpl.
  assert (Hid : id (if String.eqb (id t) id1 then toggled t else t) = id t)
    by now destruct (String.eqb (id t) id1).
  rewrite Hid. destruct (String.eqb (id t) id0); simpl; now rewrite IH.
Qed.

Lemma act_status_ok tasks a :
  Forall status_ok tasks -> Forall status_ok (act tasks a).
Proof.
  intros Hok. destruct a as [uuid now args|id0|id0]; simpl.
  - constructor; [now left|exact Hok].
  - unfold toggleTask. rewrite Forall_forall in *. intros t' Hin.
    apply list_elem_of_In, in_map_iff in Hin as (t & <- & Hin).
    apply list_elem_of_In, Hok in Hin.
    destruct (String.eqb (id t) id0); [|exact Hin].
    unfold status_ok, toggled. simpl.
    destruct (String.eqb (status t) "completed"); [now left|now right].
  - unfold deleteTask. rewrite Forall_forall in *. intros t Hin.
    apply list_elem_of_In, filter_In in Hin as [Hin _].
    now apply Hok, list_elem_of_In.
Qed.

Lemma views_partition tasks :
  Forall status_ok tasks ->
  Permutation (pendingTasks tasks ++ completedTasks tasks) tasks.
Proof.
  induction 1 as [|t rest Ht Hrest IH]; [constructor|].
  unfold pendingTasks, completedTasks in *. simpl.
  destruct Ht as [-> | ->]; simpl.
  - now constructor.
  - rewrite <- Permutation_middle. now constructor.
Qed.

(** X15. Every status being ['pending'] or ['completed'] is kept by
    creating, toggling and deleting; hence, from such a list and after
    any sequence of these, the two views shown, pending and completed,
    hold every task exactly once between them. *)
Theorem views_show_every_task_once tasks actions :
  Forall status_ok tasks ->
  let tasks' := fold_left act actions tasks in
  Forall status_ok tasks' /\
  Permutation (pendingTasks tasks' ++ completedTasks tasks') tasks'.
Proof.
  intros Hok tasks'.
  assert (Hok' : Forall status_ok tasks').
  { subst tasks'. revert tasks Hok.
    induction actions as [|a rest IH]; intros tasks Hok; [exact Hok|].
    simpl. apply IH. now apply act_status_ok. }
  split; [exact Hok'|]. now apply views_partition.
Qed.

(** *** The properties on the sample tasks *)

Definition session_of_edits : list Action :=
  [Create "0b6d" 1700 AppFacts.call_dentist; Toggle "2"; Delete "1"].

Lemma sample_status_ok : Forall status_ok AppFacts.sample_tasks.
Proof. repeat constructor. Qed.

Lemma sample_ids_distinct : NoDup (id <$> AppFacts.sample_tasks).
Proof.
  cbn. repeat (apply NoDup_cons; split;
               [rewrite ?not_elem_of_cons; repeat split;
                  (discriminate || apply not_elem_of_nil)|]).
  apply NoDup_nil_2.
Qed.

Lemma fresh_0b6d : "0b6d" ∉ (id <$> AppFacts.sample_tasks).
Proof.
  cbn. rewrite !not_elem_of_cons. repeat split; (discriminate || apply not_elem_of_nil).
Qed.

Lemma toggleTask_twice_restores_witness :
  toggleTask "2" (toggleTask "2" AppFacts.sample_tasks) = AppFacts.sample_tasks.
Proof.
  apply (toggleTask_twice_restores "2" AppFacts.sample_tasks).
  intros t Hin _. eapply Forall_forall in Hin; [exact Hin|exact sample_status_ok].
Defined.

Lemma create_then_delete_restores_witness :
  deleteTask "0b6d"
    (handleCreateTask "0b6d" 1700 AppFacts.call_dentist AppFacts.sample_tasks)
  = AppFacts.sample_tasks.
Proof.
  exact (proj1 (create_then_delete_restores "0b6d" 1700 AppFacts.call_dentist
                  AppFacts.sample_tasks fresh_0b6d)).
Defined.

Lemma handlers_touch_one_card_witness :
  exists t,
    AppFacts.sample_tasks !! 1%nat = Some t /\
    deleteTask "2" AppFacts.sample_tasks = delete 1%nat AppFacts.sample_tasks /\
    toggleTask "2" AppFacts.sample_tasks = <[1%nat := toggled t]> AppFacts.sample_tasks.
Proof.
  eexists. split; [reflexivity|].
  exact (handlers_touch_one_card AppFacts.sample_tasks 1%nat _
           sample_ids_distinct eq_refl).
Defined.

Lemma views_show_every_task_once_witness :
  let tasks' := fold_left act session_of_edits AppFacts.sample_tasks in
  Forall status_ok tasks' /\
  Permutation (pendingTasks tasks' ++ completedTasks tasks') tasks'.
Proof.
  exact (views_show_every_task_once AppFacts.sample_tasks session_of_edits
           sample_status_ok).
Defined.

Lemma ids_stay_distinct_witness :
  NoDup (id <$> fold_left act session_of_edits AppFacts.sample_tasks).
Proof.
  apply (ids_stay_distinct AppFacts.sample_tasks session_of_edits
           sample_ids_distinct).
  split; [exact fresh_0b6d|]. repeat split.
Defined.

End TaskList.

(** ** components/TaskCard.tsx

    [getStatusStyles], [getStatusText] and the flags [TaskCard] derives
    from them. The platform's [Date] is taken as given: [today] is the
    time value of [now] after [setHours(0, 0, 0, 0)], read anew by each
    of the two functions, [localTime y m d] the time value of
    [new Date(y, m, d)], and [shortDate] the [toLocaleDateString] of a
    time value. *)

Module TaskCard.
Import Types.

(** [\d] *)
Definition is_digit (c : Stdlib.Strings.Ascii.ascii) : bool :=
  (48 <=? Stdlib.Strings.Ascii.nat_of_ascii c)%nat && (Stdlib.Strings.Ascii.nat_of_ascii c <=? 57)%nat.

(** The character [-], code 45. *)
Definition dash : Stdlib.Strings.Ascii.ascii := Stdlib.Strings.Ascii.ascii_of_nat 45.

Definition is_dash (c : Stdlib.Strings.Ascii.ascii) : bool :=
  Stdlib.Strings.Ascii.eqb c dash.

(** [/^\d{4}-\d{2}-\d{2}$/.test(s)] *)
Definition dateRegex_test (s : string) : bool :=
  match String.list_ascii_of_string s with
  | [y1; y2; y3; y4; h1; m1; m2; h2; d1; d2] =>
      is_digit y1 && is_digit y2 && is_digit y3 && is_digit y4 && is_dash h1
      && is_digit m1 && is_digit m2 && is_dash h2
      && is_digit d1 && is_digit d2
  | _ => false
  end.

(** [s.split('-')] *)
Fixpoint split_dash (s : string) : list string :=
  match s with
  | EmptyString => [EmptyString]
  | String c rest =>
      if is_dash c then EmptyString :: split_dash rest
      else match split_dash rest with
           | part :: parts => String c part :: parts
           | [] => [String c EmptyString]
           end
  end.

(** [Number(s)] on a string of decimal digits; [None] stands for the
    other strings, which the format check keeps away. *)
Fixpoint digits_value (acc : Z) (s : string) : option Z :=
  match s with
  | EmptyString => Some acc
  | String c rest =>
      if is_digit c
      then digits_value (10 * acc + (Z.of_nat (Stdlib.Strings.Ascii.nat_of_ascii c) - 48)) rest
      else None
  end.

Definition Number (s : string) : option Z := digits_value 0 s.

(** [const [y, m, d] = dateStr.split('-').map(Number)] *)
Definition year_month_day (dateStr : string) : option (Z * Z * Z) :=
  match split_dash dateStr with
  | ys :: ms :: ds :: _ =>
      match Number ys, Number ms, Number ds with
      | Some y, Some m, Some d => Some (y, m, d)
      | _, _, _ => None
      end
  | _ => None
  end.

Definition style_completed : string := "bg-slate-900/50 opacity-60 border-slate-800".
Definition style_default : string :=
  "bg-slate-800 hover:bg-slate-800/80 hover:border-slate-700 shadow-lg border-slate-800".
Definition style_overdue : string :=
  "bg-rose-950/20 border-rose-900/50 hover:bg-rose-900/30 hover:border-rose-700 shadow-lg".
Definition style_today : string :=
  "bg-amber-950/20 border-amber-900/50 hover:bg-amber-900/30 hover:border-amber-700 shadow-lg".

(** A string in a condition. *)
Definition given (o : option string) : option string :=
  match o with
  | Some s => if String.eqb s "" then None else Some s
  | None => None
  end.

Section Card.

Context (today : Z) (localTime : Z -> Z -> Z -> Z) (shortDate : Z -> string).

(** [getStatusStyles]. Without three numbers the date is invalid and
    both comparisons are false. *)
Definition getStatusStyles (dateStr : option string) (isCompleted : bool) : string :=
  if isCompleted then style_completed
  else match given dateStr with
       | None => style_default
       | Some s =>
           if negb (dateRegex_test s) then style_default
           else match year_month_day s with
                | Some (y, m, d) =>
                    let taskDate := localTime y (m - 1) d in
                    if (taskDate <? today)%Z then style_overdue
                    else if (taskDate =? today)%Z then style_today
                    else style_default
                | None => style_default
                end
       end.

(** [getStatusText]; [None] is [null]. *)
Definition getStatusText (dateStr : option string) : option string :=
  match given dateStr with
  | None => None
  | Some s =>
      if negb (dateRegex_test s) then Some s
      else match year_month_day s with
           | Some (y, m, d) =>
               let taskDate := localTime y (m - 1) d in
               if (taskDate <? today)%Z then Some "Overdue"
               else if (taskDate =? today)%Z then Some "Today"
               else Some (shortDate taskDate)
           | None => Some "Invalid Date"
           end
  end.

End Card.

(** What [TaskCard] computes before it renders. *)
Record Card := {
  containerClasses : string;
  dateStatusText : option string;
  isOverdue : bool;
  isToday : bool
}.

(** [TaskCard]. Each of the two functions reads [new Date()] itself:
    [todayStyles] is the day [getStatusStyles] sees and [todayText] the
    day [getStatusText] sees, called after it. *)
Definition TaskCard (todayStyles todayText : Z) (localTime : Z -> Z -> Z -> Z)
    (shortDate : Z -> string) (task : Task) : Card :=
  let containerClasses :=
    getStatusStyles todayStyles localTime (date task)
      (String.eqb (status task) "completed") in
  let dateStatusText := getStatusText todayText localTime shortDate (date task) in
  {| containerClasses := containerClasses;
     dateStatusText := dateStatusText;
     isOverdue := bool_decide (dateStatusText = Some "Overdue")
                  && negb (String.eqb (status task) "completed");
     isToday := bool_decide (dateStatusText = Some "Today")
                && negb (String.eqb (status task) "completed") |}.

Lemma digit_not_dash c : is_digit c = true -> is_dash c = false.
Proof.
  intros Hd. unfold is_dash.
  destruct (Stdlib.Strings.Ascii.eqb_spec c dash) as [-> |]; [|reflexivity].
  discriminate.
Qed.

Lemma digit_bounds c :
  is_digit c = true -> (0 <= Z.of_nat (Stdlib.Strings.Ascii.nat_of_ascii c) - 48 <= 9)%Z.
Proof.
  unfold is_digit. intros Hd. apply andb_prop in Hd as [Hlo Hhi].
  apply Nat.leb_le in Hlo, Hhi. lia.
Qed.

(** X17. A date that passes the format check always splits into three
    numbers: a year of at most 9999 and a month and a day of at most 99.
    The check does not look at the calendar: month 00 or 13, day 00 or 32
    pass it. *)
Theorem checked_date_gives_three_numbers s :
  dateRegex_test s = true ->
  exists y m d,
    year_month_day s = Some (y, m, d) /\
    (0 <= y <= 9999)%Z /\ (0 <= m <= 99)%Z /\ (0 <= d <= 99)%Z /\
    String.length s = 10%nat.
Proof.
  unfold dateRegex_test. intros Htest.
  destruct s as [|y1 [|y2 [|y3 [|y4 [|h1 [|m1 [|m2 [|h2 [|d1 [|d2 [|? ?]]]]]]]]]]];
    try discriminate.
  cbn [String.list_ascii_of_string] in Htest.
  do 9 (apply andb_prop in Htest as [Htest ?]).
  unfold year_month_day. cbn [split_dash].
  repeat match goal with
         | Hd : is_digit ?c = true |- context [is_dash ?c] =>
             rewrite (digit_not_dash c Hd)
         | Hh : is_dash ?c = true |- context [is_dash ?c] => rewrite Hh
         end.
  unfold Number. cbn [digits_value].
  repeat match goal with
         | Hd : is_digit ?c = true |- context [is_digit ?c] => rewrite Hd
         end.
  eexists _, _, _. split; [reflexivity|].
  repeat match goal with
         | Hd : is_digit ?c = true |- _ => apply digit_bounds in Hd
         end.
  repeat split; lia.
Qed.

Section CardFacts.

Context (todayStyles todayText : Z).
Context (localTime : Z -> Z -> Z -> Z) (shortDate : Z -> string).

Lemma given_Some o s : given o = Some s -> o = Some s /\ s <> "".
Proof.
  destruct o as [s'|]; [|discriminate]. simpl.
  destruct (String.eqb s' "") eqn:He; [discriminate|].
  intros [= ->]. split; [reflexivity|now apply String.eqb_neq].
Qed.

(** X18. For a task that is not completed, [shortDate] never spelling
    Overdue or Today, and the day not going back between the two reads of
    the clock: an overdue tint always comes with the overdue flag, and
    the two flags are never both set. When both reads fall on the same
    day, tint and flags agree altogether: a due-today tint comes with
    the due-today flag, and a flag comes with the matching tint except
    when the date is not in the checked format and is itself the text
    Overdue or Today, which is then shown flagged on a card with the
    default tint. *)
Theorem tint_and_flags_agree task :
  status task <> "completed" ->
  (forall ts, shortDate ts <> "Overdue" /\ shortDate ts <> "Today") ->
  (todayStyles <= todayText)%Z ->
  let card := TaskCard todayStyles todayText localTime shortDate task in
  (containerClasses card = style_overdue -> isOverdue card = true) /\
  isOverdue card && isToday card = false /\
  (todayStyles = todayText ->
   (isOverdue card = true ->
    containerClasses card = style_overdue \/ date task = Some "Overdue") /\
   (containerClasses card = style_today -> isToday card = true) /\
   (isToday card = true ->
    containerClasses card = style_today \/ date task = Some "Today")).
Proof.
  intros Hst Hshort Hclock card. subst card. unfold TaskCard.
  cbn [containerClasses isOverdue isToday].
  apply String.eqb_neq in Hst. rewrite Hst. cbn [negb]. rewrite !andb_true_r.
  unfold getStatusStyles, getStatusText.
  destruct (given (date task)) as [s|] eqn:Hg.
  2:{ repeat split; try discriminate. }
  apply given_Some in Hg as [Hdate _].
  destruct (dateRegex_test s); cbn [negb].
  - destruct (year_month_day s) as [[[y m] d]|].
    2:{ repeat split; try discriminate. }
    cbn zeta. set (taskDate := localTime y (m - 1) d).
    destruct (Hshort taskDate) as [Ho Ht].
    destruct (Z.ltb_spec taskDate todayStyles), (Z.ltb_spec taskDate todayText),
      (Z.eqb_spec taskDate todayStyles), (Z.eqb_spec taskDate todayText);
      try lia.
    all: split; [first [discriminate | reflexivity]|].
    all: split;
      [rewrite ?(bool_decide_eq_false_2 (Some (shortDate taskDate) = _))
         by congruence; reflexivity|].
    all: intros Hsame; try lia.
    all: repeat split; try discriminate; auto.
    all: intros Hflag; apply bool_decide_eq_true in Hflag; congruence.
  - split; [discriminate|]. split.
    + destruct (bool_decide (Some s = Some "Overdue")) eqn:Ho; [|reflexivity].
      apply bool_decide_eq_true in Ho. injection Ho as ->.
      now rewrite bool_decide_eq_false_2.
    + intros _. repeat split; try discriminate.
      * intros Hflag. apply bool_decide_eq_true in Hflag. right. congruence.
      * intros Hflag. apply bool_decide_eq_true in Hflag. right. congruence.
Qed.

(** X19. A completed task is never presented as overdue or due today:
    whatever its date and whatever the two reads of the clock, the card
    has the completed tint and neither flag. *)
Theorem completed_card_is_never_flagged task :
  status task = "completed" ->
  let card := TaskCard todayStyles todayText localTime shortDate task in
  containerClasses card = style_completed /\
  isOverdue card = false /\ isToday card = false.
Proof.
  intros Hst card. subst card. unfold TaskCard, getStatusStyles.
  cbn [containerClasses isOverdue isToday]. rewrite Hst. simpl String.eqb.
  cbn [negb]. now rewrite !andb_false_r.
Qed.

End CardFacts.

(** *** The properties on a calendar of months of 31 days *)

Definition toy_today : Z := 2025 * 372 + 2 * 31 + 10.
Definition toy_localTime (y m d : Z) : Z := y * 372 + m * 31 + d.
Definition toy_shortDate (ts : Z) : string := "Mar 10".

Definition due (dateStr st : string) : Task :=
  {| id := "1"; title := "Pay electric bill"; date := Some dateStr; time := None;
     priority := "High"; status := st; createdAt := 0 |}.

Example labels_of_three_dates :
  getStatusText toy_today toy_localTime toy_shortDate (Some "2025-03-09") = Some "Overdue" /\
  getStatusText toy_today toy_localTime toy_shortDate (Some "2025-03-10") = Some "Today" /\
  getStatusText toy_today toy_localTime toy_shortDate (Some "2025-03-11") = Some "Mar 10" /\
  getStatusText toy_today toy_localTime toy_shortDate (Some "tomorrow") = Some "tomorrow" /\
  getStatusText toy_today toy_localTime toy_shortDate (Some "2025-3-9") = Some "2025-3-9".
Proof. repeat split. Qed.

Lemma checked_date_gives_three_numbers_witness :
  exists y m d,
    year_month_day "2025-13-00" = Some (y, m, d) /\
    (0 <= y <= 9999)%Z /\ (0 <= m <= 99)%Z /\ (0 <= d <= 99)%Z /\
    String.length "2025-13-00" = 10%nat.
Proof. apply (checked_date_gives_three_numbers "2025-13-00"). reflexivity. Defined.

(** Midnight passing between the two reads: the card of a task due on
    the first day has the due-today tint and the overdue flag. *)
Example tint_and_flag_across_midnight :
  let card := TaskCard toy_today (toy_today + 1) toy_localTime toy_shortDate
                (due "2025-03-10" "pending") in
  containerClasses card = style_today /\
  isOverdue card = true /\ isToday card = false.
Proof. repeat split. Qed.

Lemma tint_and_flags_agree_witness :
  let card := TaskCard toy_today toy_today toy_localTime toy_shortDate
                (due "Overdue" "pending") in
  containerClasses card = style_default /\ isOverdue card = true /\
  (isOverdue card = true ->
   containerClasses card = style_overdue \/
   date (due "Overdue" "pending") = Some "Overdue").
Proof.
  destruct (tint_and_flags_agree toy_today toy_today toy_localTime toy_shortDate
              (due "Overdue" "pending")) as (_ & _ & Hsame).
  - discriminate.
  - intros ts. split; discriminate.
  - reflexivity.
  - destruct (Hsame eq_refl) as (Hflag & _).
    split; [reflexivity|]. split; [reflexivity|exact Hflag].
Defined.

Lemma completed_card_is_never_flagged_witness :
  let card := TaskCard toy_today (toy_today + 1) toy_localTime toy_shortDate
                (due "2025-03-09" "completed") in
  containerClasses card = style_completed /\
  isOverdue card = false /\ isToday card = false.
Proof.
  apply (completed_card_is_never_flagged toy_today (toy_today + 1) toy_localTime
           toy_shortDate (due "2025-03-09" "completed")).
  reflexivity.
Defined.

End TaskCard.

(** ** [App] wired to the hook

    [useLiveManager({ onTaskCreated: handleCreateTask })]. The application
    state is the task list together with the numbers of values drawn so
    far from [crypto.randomUUID()] and from [Date.now()], which pick the
    values the next creation gets. *)

Module Wiring.
Import Num Types App LiveManager.

Record AppState := {
  uuids_drawn : nat;
  clock_reads : nat;
  tasks : list Task
}.

Section Wired.

Context {T : Type} `{JsNumber T}.
Context (randomUUID : nat -> string) (Date_now : nat -> Z).
Context (decodeAudioData : string -> AudioContext -> option T).

(** A call of [handleCreateTask]; [None] is a call without an argument
    object, as a function call whose [args] the peer left out gives. The
    object literal is evaluated in order: [crypto.randomUUID()] first,
    then [args.title], a [TypeError] when there is no [args], and
    [Date.now()] last; [setTasks] follows. *)
Definition handleCreateTask_called (args : option TaskToolArgs) (st : AppState)
    : Completion unit * AppState :=
  match args with
  | None =>
      (Thrown,
       {| uuids_drawn := S (uuids_drawn st); clock_reads := clock_reads st;
          tasks := tasks st |})
  | Some args =>
      (Normal tt,
       {| uuids_drawn := S (uuids_drawn st); clock_reads := S (clock_reads st);
          tasks := handleCreateTask (randomUUID (uuids_drawn st))
                     (Date_now (clock_reads st)) args (tasks st) |})
  end.

(** The [onTaskCreated] prop on the calls of [FunctionCall], which all
    carry an argument object. *)
Definition onTaskCreated : TaskToolArgs -> AppState -> Completion unit * AppState :=
  fun args st => handleCreateTask_called (Some args) st.

Lemma dispatch_wired sess fcs (w : World T AppState) :
  exists news,
    dispatch onTaskCreated sess fcs w =
      (Normal tt,
       {| hook := hook w;
          app := {| uuids_drawn := uuids_drawn (app w) + length (createTask_calls fcs);
                    clock_reads := clock_reads (app w) + length (createTask_calls fcs);
                    tasks := news ++ tasks (app w) |} |},
       (dispatch onTaskCreated sess fcs w).2) /\
    title <$> news = rev (args_title <$> (fc_args <$> createTask_calls fcs)) /\
    Forall (fun t => status t = "pending") news.
Proof.
  revert w. induction fcs as [|fc rest IH]; intros w.
  - exists []. simpl. unfold ret. destruct w as [s [n k l]]; simpl.
    rewrite !Nat.add_0_r. now repeat split.
  - unfold createTask_calls. cbn [List.filter]. fold (createTask_calls rest).
    destruct (String.eqb (fc_name fc) "createTask") eqn:Hname.
    + apply String.eqb_eq in Hname.
      rewrite (dispatch_createTask onTaskCreated sess fc rest w Hname).
      unfold onTaskCreated at 1 3, handleCreateTask_called.
      set (w1 := {| hook := hook w;
                    app := {| uuids_drawn := S (uuids_drawn (app w));
                              clock_reads := S (clock_reads (app w));
                              tasks := handleCreateTask
                                         (randomUUID (uuids_drawn (app w)))
                                         (Date_now (clock_reads (app w)))
                                         (fc_args fc) (tasks (app w)) |} |}).
      destruct (IH w1) as (news & Heq & Htitles & Hpending).
      rewrite Heq. cbn [fst snd hook app w1 uuids_drawn clock_reads tasks].
      exists (news ++ [{| id := randomUUID (uuids_drawn (app w));
                          title := args_title (fc_args fc);
                          date := args_date (fc_args fc);
                          time := args_time (fc_args fc);
                          priority := or_Medium (args_priority (fc_args fc));
                          status := "pending";
                          createdAt := Date_now (clock_reads (app w)) |}]).
      split; [|split].
      * do 3 f_equal. f_equal.
        -- simpl. lia.
        -- simpl. lia.
        -- unfold handleCreateTask. now rewrite <- app_assoc.
      * rewrite fmap_app, Htitles. cbn [fmap list_fmap rev]. reflexivity.
      * apply Forall_app. split; [exact Hpending|]. now repeat constructor.
    + apply String.eqb_neq in Hname.
      rewrite (dispatch_other onTaskCreated sess fc rest w Hname). apply IH.
Qed.

(** X20. [handleCreateTask] returns whenever it is called with an
    argument object, and throws, leaving the task list as it was, when
    called without one. With it as the callback, and for a message whose
    [createTask] calls each carry an argument object: every such call is
    answered, in order, on the delivering session, and the task list
    grows at its front by one ['pending'] task per call, the task of the
    last call first, the tasks already there being kept. *)
Theorem wired_calls_create_and_answer
    (w : World T AppState) sess fcs sc t node :
  let msg := {| toolCall := Some fcs; serverContent := sc |} in
  let r := onmessage onTaskCreated decodeAudioData sess msg t node w in
  (forall st,
     (handleCreateTask_called None st).1 = Thrown /\
     tasks (handleCreateTask_called None st).2 = tasks st) /\
  (forall args st, (handleCreateTask_called (Some args) st).1 = Normal tt) /\
  toolResults r.2 = (fun fc => (sess, fc_id fc)) <$> createTask_calls fcs /\
  callbackCalls r.2 = fc_args <$> createTask_calls fcs /\
  exists news,
    tasks (app r.1.2) = news ++ tasks (app w) /\
    length news = length (createTask_calls fcs) /\
    title <$> news = rev (args_title <$> (fc_args <$> createTask_calls fcs)) /\
    Forall (fun t => status t = "pending") news.
Proof.
  intros msg r. subst r.
  split; [now intros st|]. split; [now intros args st|].
  destruct (dispatch_wired sess fcs w) as (news & Heq & Htitles & Hpending).
  assert (Hret : (dispatch onTaskCreated sess fcs w).1.1 = Normal tt)
    by now rewrite Heq.
  destruct (onmessage_tool_effects onTaskCreated decodeAudioData sess msg t node w)
    as [-> ->].
  unfold handleToolCalls. cbn [toolCall msg].
  destruct (dispatch_returned onTaskCreated sess fcs w Hret) as [Hcalls Hres].
  split; [exact Hres|]. split; [exact Hcalls|].
  exists news. split; [|split; [|split; [exact Htitles|exact Hpending]]].
  - unfold onmessage, bind, handleToolCalls. cbn [toolCall msg]. rewrite Heq.
    set (w1 := {| hook := hook w;
                  app := {| uuids_drawn := uuids_drawn (app w)
                                           + length (createTask_calls fcs);
                            clock_reads := clock_reads (app w)
                                           + length (createTask_calls fcs);
                            tasks := news ++ tasks (app w) |} |}).
    assert (Happ : forall x : World T AppState,
              app (handleAudio decodeAudioData msg t node x).1.2 = app x).
    { intros x.
      destruct (base64Audio_of msg) as [b|] eqn:Hb;
        [|now rewrite handleAudio_skipped by (now rewrite Hb)].
      destruct (audioContextRef (hook x)) as [ctx|] eqn:Hc;
        [|now rewrite handleAudio_skipped by (now rewrite Hb, Hc)].
      destruct (truthy b) eqn:Ht;
        [|now rewrite handleAudio_skipped by (now rewrite Hb, Hc)].
      destruct (decodeAudioData b ctx) as [d|] eqn:Hd.
      - now rewrite (handleAudio_played decodeAudioData _ _ _ _ _ _ _ Hb Ht Hc Hd).
      - now rewrite (handleAudio_decode_failed decodeAudioData _ _ _ _ _ _ Hb Ht Hc Hd). }
    specialize (Happ w1).
    destruct (handleAudio decodeAudioData msg t node w1) as [[r2 w2] e2].
    cbn [fst snd] in *. now rewrite Happ.
  - apply (f_equal (@length _)) in Htitles.
    rewrite length_fmap, length_rev, !length_fmap in Htitles. exact Htitles.
Qed.

End Wired.

End Wiring.
